(** * The pump.fun API client (utils/js_client.js): request executor and
      paginated collector

    The development embeds the [PumpFunAPI] class of [utils/js_client.js]:
    its constructor, the private [_request] method with the nested
    [makeRequest] closure and its two event handlers, and
    [getAllTokenTrades].

    Conventions of the embedding.
    - JavaScript numbers that the client handles as counts, offsets, status
      codes and millisecond delays are integers of [Z]; the one place where
      the source divides ([retryDelay / 1000]) uses exact rationals of [Q].
    - A JavaScript string is a [string]; every character stands for one code
      unit in the range 0..255.
    - Asynchrony is made explicit: the network is a script, the list of the
      outcomes of the successive physical requests, and a run yields the
      state of the promise together with the trace of the effects performed.
      A script that is too short leaves the promise pending.
    - Console output (the [debug] lines) is not part of the trace. *)

From Stdlib Require Import ZArith QArith Bool String Ascii List Lia DecimalString.
Import ListNotations.

Set Warnings "-register-all".

Local Open Scope Z_scope.
Local Open Scope string_scope.

(* ================================================================= *)
(** ** JavaScript primitives used by the client *)

Module JS.

(** [String(n)] and template interpolation of an integer number. *)
Definition number_to_string (n : Z) : string :=
  NilZero.string_of_int (Z.to_int n).

(** Code units that [String.prototype.trim] strips (WhiteSpace and
    LineTerminator below 256): TAB, LF, VT, FF, CR, SP, NBSP. *)
Definition is_white_space (c : ascii) : bool :=
  let n := N_of_ascii c in
  ((9 <=? n) && (n <=? 13) || (n =? 32) || (n =? 160))%N.

Fixpoint trimStart (s : string) : string :=
  match s with
  | EmptyString => EmptyString
  | String c s' => if is_white_space c then trimStart s' else s
  end.

Fixpoint trimEnd (s : string) : string :=
  match s with
  | EmptyString => EmptyString
  | String c s' =>
      match trimEnd s' with
      | EmptyString => if is_white_space c then EmptyString else String c EmptyString
      | t => String c t
      end
  end.

Definition trim (s : string) : string := trimEnd (trimStart s).

(** Every code unit of the string is white space. *)
Fixpoint blank (s : string) : bool :=
  match s with
  | EmptyString => true
  | String c s' => is_white_space c && blank s'
  end.

(** Truthiness of a string: only the empty string is falsy. *)
Definition truthy_string (s : string) : bool :=
  match s with EmptyString => false | _ => true end.

(** Own-property lookup in an object given by its entries. *)
Fixpoint lookup {A : Type} (k : string) (m : list (string * A)) : option A :=
  match m with
  | [] => None
  | (k', v) :: m' => if String.eqb k k' then Some v else lookup k m'
  end.

(** Values produced by [JSON.parse]. *)
Inductive json : Type :=
| JNull
| JBool (b : bool)
| JNum (n : Z)
| JStr (s : string)
| JArr (items : list json)
| JObj (entries : list (string * json)).

Definition truthy (j : json) : bool :=
  match j with
  | JNull => false
  | JBool b => b
  | JNum n => negb (Z.eqb n 0)
  | JStr s => truthy_string s
  | JArr _ | JObj _ => true
  end.

(** Result of evaluating an expression that may throw; the exception is
    represented by its message. *)
Inductive completion (A : Type) : Type :=
| Normal (a : A)
| Throw (message : string).
Arguments Normal {A} a.
Arguments Throw {A} message.

(** ToString, as applied by template literals. No member of a parsed
    object is callable: an object with an own [toString] member finds no
    primitive value and the conversion throws a TypeError (V8 wording); any
    other object goes through [Object.prototype.toString]. An array joins
    the texts of its elements with commas, [null] giving the empty text,
    and throws when an element does. *)
Fixpoint ToString (j : json) : completion string :=
  match j with
  | JNull => Normal "null"
  | JBool true => Normal "true"
  | JBool false => Normal "false"
  | JNum n => Normal (number_to_string n)
  | JStr s => Normal s
  | JArr items =>
      (fix join (l : list json) : completion string :=
         match l with
         | [] => Normal EmptyString
         | x :: l' =>
             match match x with JNull => Normal EmptyString | _ => ToString x end with
             | Throw m => Throw m
             | Normal s =>
                 match l' with
                 | [] => Normal s
                 | _ :: _ =>
                     match join l' with
                     | Throw m => Throw m
                     | Normal t => Normal (s ++ "," ++ t)
                     end
                 end
             end
         end) items
  | JObj entries =>
      match lookup "toString" entries with
      | Some _ => Throw "Cannot convert object to primitive value"
      | None => Normal "[object Object]"
      end
  end.

(** [j.name] for a property name that is neither [length] nor an index
    (the client reads [message] and [error]): [None] is [undefined];
    reading a property of [null] throws a TypeError (V8 wording). *)
Definition get (j : json) (name : string) : completion (option json) :=
  match j with
  | JNull => Throw ("Cannot read properties of null (reading '" ++ name ++ "')")
  | JObj entries => Normal (lookup name entries)
  | _ => Normal None
  end.

(** Scalars passed as query parameters. *)
Inductive value : Type :=
| VUndefined
| VNull
| VString (s : string)
| VNumber (n : Z)
| VBoolean (b : bool).

(** [String(v)]. *)
Definition to_String (v : value) : string :=
  match v with
  | VUndefined => "undefined"
  | VNull => "null"
  | VString s => s
  | VNumber n => number_to_string n
  | VBoolean true => "true"
  | VBoolean false => "false"
  end.

(** [v !== undefined && v !== null]. *)
Definition defined (v : value) : bool :=
  match v with
  | VUndefined | VNull => false
  | _ => true
  end.

(** A number that may be NaN (timer delays computed from a header). *)
Inductive number : Type :=
| NaN
| Num (q : Q).

Definition ms (n : Z) : number := Num (inject_Z n).

Definition times (x : number) (k : Q) : number :=
  match x with
  | NaN => NaN
  | Num q => Num (q * k)
  end.

(** [new Error(message)], with the [response] property that the client
    attaches to API errors: status, parsed body, headers. *)
Record Error : Type := mkError {
  message : string;
  response : option (Z * json * list (string * string))
}.

(** State of a promise. *)
Inductive promise (A : Type) : Type :=
| Pending
| Resolved (v : A)
| Rejected (e : Error).
Arguments Pending {A}.
Arguments Resolved {A} v.
Arguments Rejected {A} e.

(** Built-ins of the platform that the client calls and that are not part
    of the repository. [JSON_parse] returns the parsed value or the message
    of the SyntaxError; [Number_of_string] is ToNumber on a string. *)
Class Platform : Type := {
  JSON_parse : string -> json + string;
  Number_of_string : string -> number
}.

End JS.
Import JS.

(* ================================================================= *)
(** ** The client object and its constructor *)

(** The options object handed to [new PumpFunAPI(options)]. [None] stands
    for a property that is missing or [undefined] (for [apiKey] also
    [null], which the default is). The constructor destructures [apiKey],
    [maxRetries] and [retryDelay] only; [baseUrl] and [debug] are the two
    further properties that the README passes. *)
Record options : Type := mkOptions {
  opt_baseUrl : option string;
  opt_apiKey : option string;
  opt_maxRetries : option Z;
  opt_retryDelay : option Z;
  opt_debug : option bool
}.

(** [new PumpFunAPI()], that is the default [{}]. *)
Definition no_options : options := mkOptions None None None None None.

(** The fields of [this]. [debug] is the truthiness of [this.debug], a
    property that [_request] reads and the constructor never writes. *)
Record PumpFunAPI : Type := mkClient {
  baseUrl : string;
  apiKey : option string;
  maxRetries : Z;
  retryDelay : Z;
  headers : list (string * string);
  debug : bool
}.

Definition default_baseUrl : string := "https://frontend-api-v3.pump.fun".

Definition default_headers : list (string * string) :=
  [ ("Accept", "application/json");
    ("Content-Type", "application/json");
    ("User-Agent", "PumpFunAPI/1.0.0 (Node.js)") ].

(** [x = d] in a destructuring pattern: the default applies to [undefined]. *)
Definition or_default {A : Type} (x : option A) (d : A) : A :=
  match x with
  | Some a => a
  | None => d
  end.

(** [apiKey || process.env.PUMPFUN_API_KEY]. *)
Definition apiKey_or_env (k env : option string) : option string :=
  match k with
  | Some s => if truthy_string s then Some s else env
  | None => env
  end.

(** [constructor({ apiKey = null, maxRetries = 3, retryDelay = 1000 } = {})];
    [env] is [process.env.PUMPFUN_API_KEY]. *)
Definition constructor (env : option string) (o : options) : PumpFunAPI :=
  let key := apiKey_or_env (opt_apiKey o) env in
  {| baseUrl := default_baseUrl;
     apiKey := key;
     maxRetries := or_default (opt_maxRetries o) 3;
     retryDelay := or_default (opt_retryDelay o) 1000;
     headers :=
       match key with
       | Some s =>
           if truthy_string s
           then (default_headers ++ [("Authorization", ("Bearer " ++ s)%string)])%list
           else default_headers
       | None => default_headers
       end;
     debug := false |}.

(* ================================================================= *)
(** ** [_request]: building the URL *)

(** A [URL] object: the string it was built from and the pairs appended to
    its [searchParams]. Endpoints of the client are plain paths, so the
    list starts empty. *)
Record URL : Type := mkURL {
  href : string;
  searchParams : list (string * string)
}.

(** [url.searchParams.append(key, value)]. *)
Definition searchParams_append (u : URL) (key value : string) : URL :=
  {| href := href u; searchParams := (searchParams u ++ [(key, value)])%list |}.

(** The body of the [forEach] callback over [Object.entries(params)]. *)
Definition add_param (u : URL) (entry : string * value) : URL :=
  let (key, v) := entry in
  if defined v then searchParams_append u key (to_String v) else u.

(** The first statements of [_request]; [params] lists the entries of the
    object in the order of [Object.entries]. *)
Definition build_url (this : PumpFunAPI) (method endpoint : string)
    (params : list (string * value)) : URL :=
  let url := {| href := baseUrl this ++ endpoint; searchParams := [] |} in
  if String.eqb method "GET" && (0 <? length params)%nat
  then fold_left add_param params url
  else url.

(** The pair that a defined entry contributes to the query, and the test
    of the [forEach] callback, as functions of the entry. *)
Definition stringify (entry : string * value) : string * string :=
  (fst entry, to_String (snd entry)).

Definition has_value (entry : string * value) : bool := defined (snd entry).

(* ================================================================= *)
(** ** [_request]: one attempt and its handlers *)

(** What the network does with one physical request. A request is taken to
    end in exactly one of these three ways; a response that is cut short
    before ['end'] (no handler of the client fires) and an ['error'] event
    that follows ['end'] on the same request are not outcomes of this
    model. *)
Inductive outcome : Type :=
| Response (statusCode : Z) (res_headers : list (string * string)) (body : string)
    (** the response arrived whole: ['end'] fires with this body *)
| Failure (e : Error)
    (** ['error'] fires on the request *)
| TimedOut.
    (** the 10 s timer fires first: [req.destroy(new Error(...))] *)

(** What a handler does with the promise or the next attempt. *)
Inductive action : Type :=
| Resolve (v : json)
| Reject (e : Error)
| Retry (delay : number) (attempt : nat).
    (** [setTimeout(() => makeRequest(attempt), delay)] *)

Definition timeout : Z := 10000.

Definition timeout_error : Error :=
  mkError ("Request timed out after " ++ number_to_string timeout ++ "ms") None.

(** The error that the ['error'] handler receives for an outcome. *)
Definition transport_error (o : outcome) : option Error :=
  match o with
  | Response _ _ _ => None
  | Failure e => Some e
  | TimedOut => Some timeout_error
  end.

Section Handlers.

Context {platform : Platform}.
Variable this : PumpFunAPI.

(** [jsonResponse.message || jsonResponse.error || 'Unknown error']. *)
Definition errorMessage_of (jsonResponse : json) : completion json :=
  match get jsonResponse "message" with
  | Throw m => Throw m
  | Normal (Some v) =>
      if truthy v then Normal v
      else match get jsonResponse "error" with
           | Throw m => Throw m
           | Normal (Some w) => if truthy w then Normal w else Normal (JStr "Unknown error")
           | Normal None => Normal (JStr "Unknown error")
           end
  | Normal None =>
      match get jsonResponse "error" with
      | Throw m => Throw m
      | Normal (Some w) => if truthy w then Normal w else Normal (JStr "Unknown error")
      | Normal None => Normal (JStr "Unknown error")
      end
  end.

(** [res.headers['retry-after'] || this.retryDelay / 1000], times 1000. *)
Definition rate_limit_delay (res_headers : list (string * string)) : number :=
  match lookup "retry-after" res_headers with
  | Some s =>
      if truthy_string s then times (Number_of_string s) 1000
      else Num (inject_Z (retryDelay this) / 1000 * 1000)
  | None => Num (inject_Z (retryDelay this) / 1000 * 1000)
  end.

(** The ['end'] handler of the response, in the order of the source. *)
Definition on_end (attempt : nat) (statusCode : Z)
    (res_headers : list (string * string)) (body : string) : action :=
  match trim body with
  | EmptyString =>
      if ((200 <=? statusCode) && (statusCode <? 300))%Z
      then Resolve (JObj [])
      else Reject (mkError ("Empty response with status "
                            ++ number_to_string statusCode) None)
  | _ =>
      match JSON_parse body with
      | inr e_message =>
          Reject (mkError ("Failed to parse JSON response: " ++ e_message
                           ++ String "010" "Response: "
                           ++ substring 0 200 body ++ "...") None)
      | inl jsonResponse =>
          if (400 <=? statusCode)%Z then
            match errorMessage_of jsonResponse with
            | Throw m =>
                Reject (mkError ("Failed to process response: " ++ m) None)
            | Normal errorMessage =>
                match ToString errorMessage with
                | Throw m =>
                    Reject (mkError ("Failed to process response: " ++ m) None)
                | Normal text =>
                    Reject (mkError ("API request failed with status "
                                     ++ number_to_string statusCode ++ ": "
                                     ++ text)
                                    (Some (statusCode, jsonResponse, res_headers)))
                end
            end
          else if (statusCode =? 429)%Z then
            if (Z.of_nat attempt <? maxRetries this)%Z
            then Retry (rate_limit_delay res_headers) (attempt + 1)
            else Reject (mkError ("Rate limited after "
                                  ++ number_to_string (maxRetries this)
                                  ++ " attempts") None)
          else Resolve jsonResponse
      end
  end.

(** The ['error'] handler of the request. *)
Definition on_error (attempt : nat) (error : Error) : action :=
  if (Z.of_nat attempt <? maxRetries this)%Z
  then Retry (ms (Z.min (retryDelay this * 2 ^ Z.of_nat attempt) 30000))
             (attempt + 1)
  else Reject error.

Definition handle (attempt : nat) (o : outcome) : action :=
  match o with
  | Response statusCode res_headers body => on_end attempt statusCode res_headers body
  | Failure e => on_error attempt e
  | TimedOut => on_error attempt timeout_error
  end.

(** Effects of a run, in order. *)
Inductive event : Type :=
| HttpsRequest (attempt : nat)
| SetTimeout (delay : number).

(** [makeRequest(attempt)] against the outcomes still to come. *)
Fixpoint makeRequest (net : list outcome) (attempt : nat)
    : promise json * list event :=
  match net with
  | [] => (Pending, [HttpsRequest attempt])
  | o :: net' =>
      match handle attempt o with
      | Resolve v => (Resolved v, [HttpsRequest attempt])
      | Reject e => (Rejected e, [HttpsRequest attempt])
      | Retry delay next =>
          let (p, trace) := makeRequest net' next in
          (p, HttpsRequest attempt :: SetTimeout delay :: trace)
      end
  end.

(** [_request(method, endpoint, params)]: the URL requested, the promise
    and the trace. *)
Definition _request (method endpoint : string) (params : list (string * value))
    (net : list outcome) : URL * (promise json * list event) :=
  (build_url this method endpoint params, makeRequest net 0).

(** Number of physical requests in a trace. *)
Fixpoint attempts (trace : list event) : nat :=
  match trace with
  | [] => 0
  | HttpsRequest _ :: trace' => S (attempts trace')
  | SetTimeout _ :: trace' => attempts trace'
  end.

(** Delays of the timers set in a trace. *)
Fixpoint delays (trace : list event) : list number :=
  match trace with
  | [] => []
  | HttpsRequest _ :: trace' => delays trace'
  | SetTimeout d :: trace' => d :: delays trace'
  end.

End Handlers.

(* ================================================================= *)
(** ** [getAllTokenTrades] *)

(** The argument of [getTokenTrades]. *)
Record trades_query : Type := mkQuery {
  q_tokenAddress : string;
  q_limit : Z;
  q_offset : Z;
  q_minimumSize : Z
}.

(** The argument of [getAllTokenTrades]; [None] is a missing property. *)
Record collect_options : Type := mkCollect {
  tokenAddress : string;
  batchSize : option Z;
  maxTrades : option Z;
  minimumSize : option Z
}.

Section Collector.

Context {trade : Type}.

(** How one [await this.getTokenTrades(...)] ends. The resolved value is an
    object (the executor resolves [{}] for an empty body) whose [trades]
    member is missing or falsy ([None]) or an array ([Some]). *)
Inductive fetched : Type :=
| Returned (trades : option (list trade))
| Threw (e : Error).

(** The remote endpoint at the time of one call. *)
Definition fetch : Type := trades_query -> fetched.

(** Effects of a run, in order: a call of [getTokenTrades] with its answer
    ([None] while the call is outstanding) and [_sleep(ms)]. *)
Inductive call : Type :=
| GetTokenTrades (q : trades_query) (answer : option fetched)
| Sleep (ms : Z).

(** [maxTrades && allTrades.length >= maxTrades]. *)
Definition cap_reached (maxTrades : option Z) (collected : Z) : bool :=
  match maxTrades with
  | Some m => negb (m =? 0)%Z && (m <=? collected)%Z
  | None => false
  end.

(** [maxTrades ? Math.min(batchSize, maxTrades - allTrades.length) : batchSize]. *)
Definition page_limit (batchSize : Z) (maxTrades : option Z) (collected : Z) : Z :=
  match maxTrades with
  | Some m => if negb (m =? 0)%Z then Z.min batchSize (m - collected) else batchSize
  | None => batchSize
  end.

(** [response.trades || []]. *)
Definition trades_or_empty (trades : option (list trade)) : list trade :=
  match trades with
  | Some l => l
  | None => []
  end.

Definition len (l : list trade) : Z := Z.of_nat (length l).

(** The [while (hasMore)] loop, entered with the current [allTrades] and
    [offset], against the answers still to come. *)
Fixpoint collect (address : string) (batch : Z) (cap : option Z) (minimum : Z)
    (server : list fetch) (allTrades : list trade) (offset : Z)
    : promise (list trade) * list call :=
  if cap_reached cap (len allTrades) then (Resolved allTrades, [])
  else
    let limit := page_limit batch cap (len allTrades) in
    let query := mkQuery address limit offset minimum in
    match server with
    | [] => (Pending, [GetTokenTrades query None])
    | f :: server' =>
        match f query with
        | Threw e => (Rejected e, [GetTokenTrades query (Some (Threw e))])
        | Returned response_trades =>
            let trades := trades_or_empty response_trades in
            if (len trades =? 0)%Z
            then (Resolved allTrades,
                  [GetTokenTrades query (Some (Returned response_trades))])
            else
              let (p, trace) :=
                collect address batch cap minimum server'
                  (allTrades ++ trades)%list (offset + len trades) in
              (p, GetTokenTrades query (Some (Returned response_trades))
                  :: (if (len trades =? batch)%Z then [Sleep 500] else [])
                  ++ trace)%list
        end
    end.

(** [getAllTokenTrades({ tokenAddress, batchSize = 200, maxTrades,
    minimumSize = 50000000 })]. *)
Definition getAllTokenTrades (o : collect_options) (server : list fetch)
    : promise (list trade) * list call :=
  collect (tokenAddress o) (or_default (batchSize o) 200) (maxTrades o)
    (or_default (minimumSize o) 50000000) server [] 0.

(** The calls of a trace that were answered, with the page each returned
    (a failed call has no page). *)
Fixpoint pages (trace : list call) : list (trades_query * list trade) :=
  match trace with
  | [] => []
  | GetTokenTrades q (Some (Returned t)) :: trace' =>
      (q, trades_or_empty t) :: pages trace'
  | _ :: trace' => pages trace'
  end.

(** The queries of a trace, answered or not. *)
Fixpoint queries (trace : list call) : list trades_query :=
  match trace with
  | [] => []
  | GetTokenTrades q _ :: trace' => q :: queries trace'
  | Sleep _ :: trace' => queries trace'
  end.

(** A page sequence as the collector must drive it, starting with
    [collected] items in hand: each page is asked for at the offset and with
    the limit that the items collected so far dictate, and only the last
    page may be empty. *)
Fixpoint paged (batch : Z) (cap : option Z) (collected : Z)
    (ps : list (trades_query * list trade)) : Prop :=
  match ps with
  | [] => True
  | (q, page) :: ps' =>
      q_offset q = collected /\
      q_limit q = page_limit batch cap collected /\
      (page = [] -> ps' = []) /\
      paged batch cap (collected + len page) ps'
  end.

(** The endpoint never returns more items than it was asked for (and none
    when asked for none or fewer). *)
Definition honours_limit (f : fetch) : Prop :=
  forall q t, f q = Returned (Some t) -> len t <= Z.max 0 (q_limit q).

End Collector.

Arguments fetched : clear implicits.
Arguments fetch : clear implicits.
Arguments call : clear implicits.

(* ================================================================= *)
(** ** Fixtures: a platform and a remote endpoint to run the client on *)

(** A stand-in for [JSON.parse] that knows three texts. *)
Definition sample_parse (text : string) : json + string :=
  if String.eqb text "{}" then inl (JObj [])
  else if String.eqb text "null" then inl JNull
  else if String.eqb text "[1]" then inl (JArr [JNum 1])
  else if String.eqb text EmptyString then inr "Unexpected end of JSON input"
  else inr "Unexpected token".

(** A stand-in for ToNumber that knows the decimal text of 2. *)
Definition sample_number (text : string) : number :=
  if String.eqb text "2" then Num 2 else NaN.

#[local] Instance sample_platform : Platform :=
  {| JSON_parse := sample_parse; Number_of_string := sample_number |}.

(** An endpoint that serves [data] and honours [limit] and [offset]. *)
Definition mock_endpoint {trade : Type} (data : list trade) : fetch trade :=
  fun q =>
    Returned (Some (firstn (Z.to_nat (q_limit q)) (skipn (Z.to_nat (q_offset q)) data))).

(** An endpoint that serves [data] from [offset] in pages of [size],
    whatever the limit asked. *)
Definition greedy_endpoint {trade : Type} (size : nat) (data : list trade) : fetch trade :=
  fun q => Returned (Some (firstn size (skipn (Z.to_nat (q_offset q)) data))).

(* ================================================================= *)
(** ** The endpoint methods *)

(** [o.name] of an options object given by its entries. *)
Definition prop (o : list (string * value)) (name : string) : value :=
  match lookup name o with
  | Some v => v
  | None => VUndefined
  end.

(** A default of a parameter or of a destructuring pattern: it replaces
    [undefined] and nothing else. *)
Definition default_to (v d : value) : value :=
  match v with
  | VUndefined => d
  | _ => v
  end.

(** [{ name = d }] taken from the object [o]. *)
Definition prop_or (o : list (string * value)) (name : string) (d : value) : value :=
  default_to (prop o name) d.

Section Endpoints.

Context {platform : Platform}.
Variable this : PumpFunAPI.

(** [searchCoins({ searchTerm, limit = 50, offset = 0, sort = 'market_cap',
    order = 'DESC', includeNsfw = false, type = 'exact' })]. *)
Definition searchCoins (o : list (string * value)) (net : list outcome)
    : URL * (promise json * list event) :=
  _request this "GET" "/coins/search"
    [ ("searchTerm", prop o "searchTerm");
      ("limit", prop_or o "limit" (VNumber 50));
      ("offset", prop_or o "offset" (VNumber 0));
      ("sort", prop_or o "sort" (VString "market_cap"));
      ("order", prop_or o "order" (VString "DESC"));
      ("includeNsfw", prop_or o "includeNsfw" (VBoolean false));
      ("type", prop_or o "type" (VString "exact")) ]
    net.

(** [getLatestTrades(limit = 10)]. *)
Definition getLatestTrades (limit : value) (net : list outcome)
    : URL * (promise json * list event) :=
  _request this "GET" "/trades/latest" [("limit", default_to limit (VNumber 10))] net.

(** [getLatestCoins({ limit = 10, includeNsfw = false } = {})]. *)
Definition getLatestCoins (o : list (string * value)) (net : list outcome)
    : URL * (promise json * list event) :=
  _request this "GET" "/coins/latest"
    [ ("limit", prop_or o "limit" (VNumber 10));
      ("includeNsfw", prop_or o "includeNsfw" (VBoolean false)) ]
    net.

(** [getWalletHoldings({ walletAddress, limit = 50, offset = 0,
    minBalance = -1 })]. *)
Definition getWalletHoldings (o : list (string * value)) (net : list outcome)
    : URL * (promise json * list event) :=
  _request this "GET" ("/balances/" ++ to_String (prop o "walletAddress"))
    [ ("limit", prop_or o "limit" (VNumber 50));
      ("offset", prop_or o "offset" (VNumber 0));
      ("minBalance", prop_or o "minBalance" (VNumber (-1))) ]
    net.

(** [getWalletCreatedCoins({ walletAddress, limit = 10, offset = 0,
    includeNsfw = false })]. *)
Definition getWalletCreatedCoins (o : list (string * value)) (net : list outcome)
    : URL * (promise json * list event) :=
  _request this "GET"
    ("/coins/user-created-coins/" ++ to_String (prop o "walletAddress"))
    [ ("limit", prop_or o "limit" (VNumber 10));
      ("offset", prop_or o "offset" (VNumber 0));
      ("includeNsfw", prop_or o "includeNsfw" (VBoolean false)) ]
    net.

(** [getTokenTrades({ tokenAddress, limit = 200, offset = 0,
    minimumSize = 50000000 })]. *)
Definition getTokenTrades (o : list (string * value)) (net : list outcome)
    : URL * (promise json * list event) :=
  _request this "GET" ("/trades/all/" ++ to_String (prop o "tokenAddress"))
    [ ("limit", prop_or o "limit" (VNumber 200));
      ("offset", prop_or o "offset" (VNumber 0));
      ("minimumSize", prop_or o "minimumSize" (VNumber 50000000)) ]
    net.

(** [getTokenComments({ tokenAddress, limit = 1000, offset = 0 })]. *)
Definition getTokenComments (o : list (string * value)) (net : list outcome)
    : URL * (promise json * list event) :=
  _request this "GET" ("/replies/" ++ to_String (prop o "tokenAddress"))
    [ ("limit", prop_or o "limit" (VNumber 1000));
      ("offset", prop_or o "offset" (VNumber 0)) ]
    net.

(** [getCurrentMetas()]: [params] is left at its default [{}]. *)
Definition getCurrentMetas (net : list outcome) : URL * (promise json * list event) :=
  _request this "GET" "/metas/current" [] net.

(** [getKingOfTheHill()]. *)
Definition getKingOfTheHill (net : list outcome) : URL * (promise json * list event) :=
  _request this "GET" "/coins/king-of-the-hill" [] net.

End Endpoints.

(** The object [{ tokenAddress, limit, offset, minimumSize }] that
    [getAllTokenTrades] hands to [getTokenTrades]. *)
Definition query_object (q : trades_query) : list (string * value) :=
  [ ("tokenAddress", VString (q_tokenAddress q));
    ("limit", VNumber (q_limit q));
    ("offset", VNumber (q_offset q));
    ("minimumSize", VNumber (q_minimumSize q)) ].

(* ================================================================= *)
(** ** [_formatTimestamp] *)

(** [timestamp] is an integer number, or [None] for [undefined] and [null];
    [toISOString ms] is [new Date(ms).toISOString()], which throws a
    RangeError outside the range of dates. *)
Definition _formatTimestamp (toISOString : Z -> completion string)
    (timestamp : option Z) : completion string :=
  match timestamp with
  | None => Normal "N/A"
  | Some t =>
      if (t =? 0)%Z then Normal "N/A"
      else toISOString (t * (if (t <? 1000000000000)%Z then 1000 else 1))%Z
  end.

(* ================================================================= *)
(** ** Vocabulary of the properties *)

Section Vocabulary.

Context {trade : Type}.

(** The durations of the [_sleep] calls of a trace. *)
Fixpoint sleeps (trace : list (call trade)) : list Z :=
  match trace with
  | [] => []
  | Sleep d :: trace' => d :: sleeps trace'
  | GetTokenTrades _ _ :: trace' => sleeps trace'
  end.

(** A page that is not empty and holds exactly [batch] trades. *)
Definition full_page (batch : Z) (page : trades_query * list trade) : bool :=
  negb (len (snd page) =? 0)%Z && (len (snd page) =? batch)%Z.

(** The [getTokenTrades] calls of a trace, without the sleeps. *)
Fixpoint calls (trace : list (call trade)) : list (call trade) :=
  match trace with
  | [] => []
  | GetTokenTrades q a :: trace' => GetTokenTrades q a :: calls trace'
  | Sleep _ :: trace' => calls trace'
  end.

(** A call, followed by a sleep of 500 ms when it brought a full page. *)
Definition with_sleep (batch : Z) (c : call trade) : list (call trade) :=
  match c with
  | GetTokenTrades q (Some (Returned t)) =>
      if full_page batch (q, trades_or_empty t) then [c; Sleep 500] else [c]
  | _ => [c]
  end.

(** The query for the next page when [collected] is what the earlier pages
    brought: the limit is [batchSize], or
    [min(batchSize, maxTrades - collected)] under a cap that is not zero,
    and the offset is the number of trades collected. *)
Definition query_at (address : string) (batch : Z) (cap : option Z) (minimum : Z)
    (collected : list trade) : trades_query :=
  mkQuery address (page_limit batch cap (len collected)) (len collected) minimum.

(** The endpoint, asked page after page from [collected] on, answers with
    the pages [ps], none of them empty: the cap is not reached before any
    of them, and each is what the endpoint, in its state at that call,
    returns for the query of the trades collected so far. *)
Fixpoint answers (address : string) (batch : Z) (cap : option Z) (minimum : Z)
    (server : list (fetch trade)) (collected : list trade)
    (ps : list (list trade)) : Prop :=
  match ps, server with
  | [], _ => True
  | _ :: _, [] => False
  | p :: ps', f :: server' =>
      cap_reached cap (len collected) = false
      /\ p <> []
      /\ (exists r, f (query_at address batch cap minimum collected) = Returned r
                    /\ trades_or_empty r = p)
      /\ answers address batch cap minimum server' (collected ++ p) ps'
  end.

End Vocabulary.

(** The member of an error body that the message of an API error shows. *)
Definition truthy_member (entries : list (string * json)) (name : string) : option json :=
  match lookup name entries with
  | Some v => if truthy v then Some v else None
  | None => None
  end.

(** A second platform, whose [JSON.parse] knows three error bodies: the one
    that docs/endpoints.md documents, with a nested [error] object, one with
    both a [message] and an [error] text, and one whose nested [error]
    object has a [toString] member. *)
Definition dq : string := String "034" EmptyString.

Definition documented_error_body : string :=
  "{" ++ dq ++ "error" ++ dq ++ ":{" ++ dq ++ "code" ++ dq ++ ":"
  ++ dq ++ "RATE_LIMIT_EXCEEDED" ++ dq ++ "}}".

Definition not_found_body : string :=
  "{" ++ dq ++ "message" ++ dq ++ ":" ++ dq ++ "Not Found" ++ dq ++ ","
  ++ dq ++ "error" ++ dq ++ ":" ++ dq ++ "E404" ++ dq ++ "}".

Definition toString_error_body : string :=
  "{" ++ dq ++ "error" ++ dq ++ ":{" ++ dq ++ "toString" ++ dq ++ ":1}}".

Definition docs_parse (text : string) : json + string :=
  if String.eqb text documented_error_body
  then inl (JObj [("error", JObj [("code", JStr "RATE_LIMIT_EXCEEDED")])])
  else if String.eqb text not_found_body
  then inl (JObj [("message", JStr "Not Found"); ("error", JStr "E404")])
  else if String.eqb text toString_error_body
  then inl (JObj [("error", JObj [("toString", JNum 1)])])
  else inr "Unexpected token".

Definition docs_platform : Platform :=
  {| JSON_parse := docs_parse; Number_of_string := sample_number |}.

(** A stand-in for [new Date(ms).toISOString()] that shows the number of
    milliseconds. *)
Definition sample_toISOString (ms : Z) : completion string :=
  Normal (number_to_string ms ++ " ms").

(* ================================================================= *)
(** * Properties *)

(** ** Strings *)

Lemma trimStart_blank (s : string) :
  blank s = true -> trimStart s = EmptyString.
Proof.
  induction s as [|c s IH]; simpl; [reflexivity|].
  destruct (is_white_space c); simpl; [exact IH | discriminate].
Qed.

Lemma trimStart_not_blank (s : string) :
  blank s = false ->
  exists c t, trimStart s = String c t /\ is_white_space c = false.
Proof.
  induction s as [|c s IH]; simpl; [discriminate|].
  destruct (is_white_space c) eqn:Hc; simpl.
  - exact IH.
  - intros _. exists c, s. split; [reflexivity | exact Hc].
Qed.

Lemma trimEnd_keeps_head (c : ascii) (t : string) :
  is_white_space c = false -> exists t', trimEnd (String c t) = String c t'.
Proof.
  intros Hc. simpl. destruct (trimEnd t) as [|d u].
  - rewrite Hc. now exists EmptyString.
  - now exists (String d u).
Qed.

Lemma trim_blank (s : string) : blank s = true -> trim s = EmptyString.
Proof. intros H. unfold trim. now rewrite trimStart_blank. Qed.

Lemma trim_not_blank (s : string) :
  blank s = false -> exists c t, trim s = String c t.
Proof.
  intros H. destruct (trimStart_not_blank s H) as (c & t & Hs & Hc).
  unfold trim. rewrite Hs.
  destruct (trimEnd_keeps_head c t Hc) as [t' Ht']. now exists c, t'.
Qed.

(** A body is empty for the client exactly when it is blank. *)
Lemma trim_empty_iff (s : string) : trim s = EmptyString <-> blank s = true.
Proof.
  split.
  - intros H. destruct (blank s) eqn:Hb; [reflexivity|].
    destruct (trim_not_blank s Hb) as (c & t & Ht). congruence.
  - apply trim_blank.
Qed.

(* ================================================================= *)
(** ** The URL *)

Lemma fold_add_param (params : list (string * value)) (u : URL) :
  fold_left add_param params u =
  {| href := href u;
     searchParams := (searchParams u ++ map stringify (filter has_value params))%list |}.
Proof.
  revert u. induction params as [|[key v] params IH]; intros u; simpl.
  - rewrite app_nil_r. now destruct u.
  - rewrite IH. unfold has_value, add_param. simpl.
    destruct (defined v); simpl.
    + now rewrite <- app_assoc.
    + reflexivity.
Qed.

Lemma build_url_GET (this : PumpFunAPI) (endpoint : string)
    (params : list (string * value)) :
  build_url this "GET" endpoint params =
  {| href := baseUrl this ++ endpoint;
     searchParams := map stringify (filter has_value params) |}.
Proof.
  unfold build_url. simpl String.eqb. cbv iota. simpl andb.
  destruct params as [|entry params]; [reflexivity|].
  change (0 <? length (entry :: params))%nat with true. cbv iota.
  now rewrite fold_add_param.
Qed.


(* ================================================================= *)
(** ** The request executor *)

Section ExecutorProperties.

Context {platform : Platform}.
Variable this : PumpFunAPI.

(** The text of the malformed-response error. *)
Lemma on_end_parse_failure (attempt : nat) (statusCode : Z)
    (res_headers : list (string * string)) (body e_message : string) :
  blank body = false ->
  JSON_parse body = inr e_message ->
  on_end this attempt statusCode res_headers body =
  Reject (mkError ("Failed to parse JSON response: " ++ e_message
                   ++ String "010" "Response: "
                   ++ substring 0 200 body ++ "...") None).
Proof.
  intros Hb Hp. unfold on_end.
  destruct (trim_not_blank body Hb) as (c & t & ->). now rewrite Hp.
Qed.

Lemma on_end_blank (attempt : nat) (statusCode : Z)
    (res_headers : list (string * string)) (body : string) :
  blank body = true ->
  on_end this attempt statusCode res_headers body =
  if ((200 <=? statusCode) && (statusCode <? 300))%Z
  then Resolve (JObj [])
  else Reject (mkError ("Empty response with status "
                        ++ number_to_string statusCode) None).
Proof. intros Hb. unfold on_end. now rewrite (trim_blank body Hb). Qed.

(** The ['end'] handler never schedules another attempt: the test
    [statusCode >= 400] comes first and takes every 429 with it. *)
Lemma on_end_never_retries (attempt : nat) (statusCode : Z)
    (res_headers : list (string * string)) (body : string)
    (delay : number) (next : nat) :
  on_end this attempt statusCode res_headers body <> Retry delay next.
Proof.
  unfold on_end. destruct (trim body).
  - destruct ((200 <=? statusCode) && (statusCode <? 300))%Z; discriminate.
  - destruct (JSON_parse body) as [j|m]; [|discriminate].
    destruct (400 <=? statusCode)%Z eqn:H400.
    + destruct (errorMessage_of j) as [em|m]; [destruct (ToString em)|]; discriminate.
    + destruct (statusCode =? 429)%Z eqn:H429; [|discriminate].
      apply Z.eqb_eq in H429. apply Z.leb_gt in H400. lia.
Qed.

Lemma on_end_429_rejects (attempt : nat)
    (res_headers : list (string * string)) (body : string) :
  exists e, on_end this attempt 429 res_headers body = Reject e.
Proof.
  unfold on_end. destruct (trim body).
  - simpl. eexists. reflexivity.
  - destruct (JSON_parse body) as [j|m]; [|eexists; reflexivity].
    change (400 <=? 429)%Z with true. cbv iota.
    destruct (errorMessage_of j) as [em|m]; [destruct (ToString em)|];
      eexists; reflexivity.
Qed.

Lemma handle_transport (attempt : nat) (o : outcome) (e : Error) :
  transport_error o = Some e -> handle this attempt o = on_error this attempt e.
Proof. destruct o; simpl; intros H; try discriminate; now injection H as ->. Qed.

(** Only a transport failure with attempts left leads to a further
    attempt, and that attempt is the next one. *)
Lemma handle_retry (attempt : nat) (o : outcome) (delay : number) (next : nat) :
  handle this attempt o = Retry delay next ->
  next = (attempt + 1)%nat /\
  (Z.of_nat attempt < maxRetries this)%Z /\
  delay = ms (Z.min (retryDelay this * 2 ^ Z.of_nat attempt) 30000) /\
  transport_error o <> None.
Proof.
  assert (Herr : forall e, on_error this attempt e = Retry delay next ->
            next = (attempt + 1)%nat /\ (Z.of_nat attempt < maxRetries this)%Z /\
            delay = ms (Z.min (retryDelay this * 2 ^ Z.of_nat attempt) 30000)).
  { intros e. unfold on_error.
    destruct (Z.of_nat attempt <? maxRetries this)%Z eqn:Hlt; [|discriminate].
    intros H. injection H as <- <-. apply Z.ltb_lt in Hlt. auto. }
  destruct o as [st h b|e|]; simpl; intros H.
  - now apply on_end_never_retries in H.
  - destruct (Herr e H) as (? & ? & ?). repeat split; auto. discriminate.
  - destruct (Herr _ H) as (? & ? & ?). repeat split; auto. discriminate.
Qed.

Lemma makeRequest_no_retry (net : list outcome) (attempt : nat) (o : outcome) :
  (forall delay next, handle this attempt o <> Retry delay next) ->
  makeRequest this (o :: net) attempt =
  (match handle this attempt o with
   | Resolve v => Resolved v
   | Reject e => Rejected e
   | Retry _ _ => Pending
   end, [HttpsRequest attempt]).
Proof.
  intros H. simpl. destruct (handle this attempt o) as [v|e|d n]; try reflexivity.
  now destruct (H d n).
Qed.

Lemma makeRequest_response (net : list outcome) (attempt : nat) (statusCode : Z)
    (res_headers : list (string * string)) (body : string) :
  makeRequest this (Response statusCode res_headers body :: net) attempt =
  (match on_end this attempt statusCode res_headers body with
   | Resolve v => Resolved v
   | Reject e => Rejected e
   | Retry _ _ => Pending
   end, [HttpsRequest attempt]).
Proof.
  apply (makeRequest_no_retry net attempt (Response statusCode res_headers body)).
  intros delay next. simpl. apply on_end_never_retries.
Qed.

(** The trace of a run from [attempt] holds at most
    [maxRetries + 1 - attempt] requests, and one when that is less. *)
Lemma attempts_from (net : list outcome) (attempt : nat) :
  (Z.of_nat (attempts (snd (makeRequest this net attempt)))
   <= Z.max 1 (maxRetries this + 1 - Z.of_nat attempt))%Z.
Proof.
  revert attempt. induction net as [|o net IH]; intros attempt; simpl.
  - lia.
  - destruct (handle this attempt o) as [v|e|d next] eqn:Hh; simpl; try lia.
    apply handle_retry in Hh. destruct Hh as (-> & Hlt & _).
    specialize (IH (attempt + 1)%nat).
    destruct (makeRequest this net (attempt + 1)) as [p trace]. simpl in *. lia.
Qed.

(** A script that is not empty and reaches past [maxRetries] settles the
    promise: the executor always returns. *)
Lemma makeRequest_settles (net : list outcome) (attempt : nat) :
  net <> [] ->
  (maxRetries this < Z.of_nat (attempt + length net))%Z ->
  fst (makeRequest this net attempt) <> Pending.
Proof.
  revert attempt. induction net as [|o net IH]; intros attempt Hne Hlen.
  - now destruct Hne.
  - simpl. destruct (handle this attempt o) as [v|e|d next] eqn:Hh;
      simpl; try discriminate.
    apply handle_retry in Hh. destruct Hh as (-> & Hlt & _).
    simpl length in Hlen.
    assert (Hnet : net <> []) by (destruct net; [simpl in Hlen; lia | discriminate]).
    specialize (IH (attempt + 1)%nat Hnet).
    destruct (makeRequest this net (attempt + 1)) as [p trace]. simpl in *.
    apply IH. lia.
Qed.

(** Every response with status 429 rejects the promise in the attempt that
    received it, whatever its headers, its body and the attempts left. *)
Lemma status_429_rejects_at_once (net : list outcome) (attempt : nat)
    (res_headers : list (string * string)) (body : string) :
  exists e,
    makeRequest this (Response 429 res_headers body :: net) attempt =
    (Rejected e, [HttpsRequest attempt]).
Proof.
  rewrite makeRequest_response.
  destruct (on_end_429_rejects attempt res_headers body) as [e ->].
  now exists e.
Qed.

(** One step of a run whose current request fails at transport level. *)
Lemma makeRequest_transport (net : list outcome) (attempt : nat)
    (o : outcome) (error : Error) :
  transport_error o = Some error ->
  makeRequest this (o :: net) attempt =
  if (Z.of_nat attempt <? maxRetries this)%Z
  then (fst (makeRequest this net (attempt + 1)),
        HttpsRequest attempt
        :: SetTimeout (ms (Z.min (retryDelay this * 2 ^ Z.of_nat attempt) 30000))
        :: snd (makeRequest this net (attempt + 1)))
  else (Rejected error, [HttpsRequest attempt]).
Proof.
  intros Ho. simpl. rewrite (handle_transport attempt o error Ho).
  unfold on_error. destruct (Z.of_nat attempt <? maxRetries this)%Z.
  - now destruct (makeRequest this net (attempt + 1)).
  - reflexivity.
Qed.

(** The schedule of a run that starts with transport failures only: the
    timer set before attempt [k] is [min(retryDelay * 2^(k-1), 30000)]. *)
Corollary backoff_schedule (failures net : list outcome) (attempt : nat) :
  Forall (fun o => transport_error o <> None) failures ->
  (Z.of_nat (attempt + length failures) <= maxRetries this)%Z ->
  delays (snd (makeRequest this (failures ++ net) attempt)) =
  (map (fun a => ms (Z.min (retryDelay this * 2 ^ Z.of_nat a) 30000))
       (seq attempt (length failures))
   ++ delays (snd (makeRequest this net (attempt + length failures))))%list.
Proof.
  revert attempt. induction failures as [|o failures IH]; intros attempt Hall Hlen.
  - simpl. now rewrite Nat.add_0_r.
  - inversion Hall as [|? ? Ho Hall']; subst.
    destruct (transport_error o) as [error|] eqn:Herr; [|now destruct Ho].
    rewrite <- app_comm_cons.
    rewrite (makeRequest_transport _ attempt o error Herr).
    simpl length in *.
    replace (Z.of_nat attempt <? maxRetries this)%Z with true
      by (symmetry; apply Z.ltb_lt; lia).
    simpl. f_equal.
    rewrite (IH (attempt + 1)%nat Hall') by lia.
    replace (attempt + 1)%nat with (S attempt) by lia.
    replace (attempt + S (length failures))%nat
      with (S attempt + length failures)%nat by lia.
    reflexivity.
Qed.

(** C3. When a physical request fails at transport level (an ['error']
    event, or the timeout that destroys the request) on attempt [attempt]
    with [attempt < maxRetries], the executor sets a timer of
    [min(retryDelay * 2^attempt, 30000)] ms and then runs attempt
    [attempt + 1] (so the timer before attempt [k] is
    [min(retryDelay * 2^(k-1), 30000)]); when no attempt is left it rejects
    with that very error and issues nothing more. *)
Theorem transport_failure_backoff (net : list outcome) (attempt : nat)
    (o : outcome) (error : Error) :
  transport_error o = Some error ->
  ((Z.of_nat attempt < maxRetries this)%Z ->
   makeRequest this (o :: net) attempt =
   (fst (makeRequest this net (attempt + 1)),
    HttpsRequest attempt
    :: SetTimeout (ms (Z.min (retryDelay this * 2 ^ Z.of_nat attempt) 30000))
    :: snd (makeRequest this net (attempt + 1))))
  /\ ((maxRetries this <= Z.of_nat attempt)%Z ->
      makeRequest this (o :: net) attempt = (Rejected error, [HttpsRequest attempt])).
Proof.
  intros Ho. rewrite (makeRequest_transport net attempt o error Ho). split; intros H.
  - apply Z.ltb_lt in H. now rewrite H.
  - apply Z.ltb_ge in H. now rewrite H.
Qed.

(** C4. Whatever the network does, one logical request issues at most
    [maxRetries + 1] physical requests ([maxRetries] being a count, that
    is not negative). *)
Theorem attempts_never_exceed_ceiling (method endpoint : string)
    (params : list (string * value)) (net : list outcome) :
  (0 <= maxRetries this)%Z ->
  (Z.of_nat (attempts (snd (snd (_request this method endpoint params net))))
   <= maxRetries this + 1)%Z.
Proof.
  intros Hpos. unfold _request. simpl snd.
  pose proof (attempts_from net 0) as H. simpl Z.of_nat in H. lia.
Qed.

(** C8 (as amended). A body that is not blank and that [JSON.parse] refuses
    rejects the promise in the attempt that received it, with an error whose
    message holds the parser's message and the first 200 characters of the
    body; the trace of the run from that attempt is that one request. *)
Theorem malformed_body_is_fatal (net : list outcome) (attempt : nat)
    (statusCode : Z) (res_headers : list (string * string))
    (body e_message : string) :
  blank body = false ->
  JSON_parse body = inr e_message ->
  makeRequest this (Response statusCode res_headers body :: net) attempt =
  (Rejected (mkError ("Failed to parse JSON response: " ++ e_message
                      ++ String "010" "Response: "
                      ++ substring 0 200 body ++ "...") None),
   [HttpsRequest attempt])
  /\ attempts (snd (makeRequest this
                      (Response statusCode res_headers body :: net) attempt))
     = 1%nat.
Proof.
  intros Hb Hp. rewrite makeRequest_response.
  rewrite (on_end_parse_failure attempt statusCode res_headers body e_message Hb Hp).
  split; reflexivity.
Qed.

(** C9. A response whose body is blank (empty or white space only)
    resolves the promise with the empty object when the status is in
    200..299 and rejects it otherwise; either way nothing more is issued. *)
Theorem empty_body_resolves_by_status (net : list outcome) (attempt : nat)
    (statusCode : Z) (res_headers : list (string * string)) (body : string) :
  blank body = true ->
  makeRequest this (Response statusCode res_headers body :: net) attempt =
  (if ((200 <=? statusCode) && (statusCode <? 300))%Z
   then Resolved (JObj [])
   else Rejected (mkError ("Empty response with status "
                           ++ number_to_string statusCode) None),
   [HttpsRequest attempt]).
Proof.
  intros Hb. rewrite makeRequest_response.
  rewrite (on_end_blank attempt statusCode res_headers body Hb).
  now destruct ((200 <=? statusCode) && (statusCode <? 300))%Z.
Qed.

End ExecutorProperties.

(** *** The executor on concrete runs *)

(** C1 (the code on a rate-limited response). The default client, with
    three retries left, receives status 429 with [Retry-After: 2] and the
    body [{}]: the promise is rejected with the API error of the
    [statusCode >= 400] branch, no timer is set and the second response of
    the script is never asked for. *)
Theorem rate_limited_response_is_not_retried :
  snd (_request (constructor None no_options) "GET" "/trades/latest"
         [("limit", VNumber 10)]
         [Response 429 [("retry-after", "2")] "{}"; Response 200 [] "{}"])
  = (Rejected
       (mkError "API request failed with status 429: Unknown error"
          (Some (429%Z, JObj [], [("retry-after", "2")]))),
     [HttpsRequest 0]).
Proof. vm_compute. reflexivity. Qed.

Lemma transport_failure_backoff_witness :
  makeRequest (constructor None no_options)
    [Failure (mkError "read ECONNRESET" None); Response 200 [] "{}"] 0
  = (Resolved (JObj []), [HttpsRequest 0; SetTimeout (ms 1000); HttpsRequest 1])
  /\ makeRequest (constructor None no_options) [TimedOut] 3
     = (Rejected timeout_error, [HttpsRequest 3]).
Proof.
  split.
  - refine (proj1 (transport_failure_backoff (constructor None no_options)
                     [Response 200 [] "{}"] 0
                     (Failure (mkError "read ECONNRESET" None))
                     (mkError "read ECONNRESET" None) eq_refl) _).
    simpl. lia.
  - refine (proj2 (transport_failure_backoff (constructor None no_options)
                     [] 3 TimedOut timeout_error eq_refl) _).
    simpl. lia.
Defined.

Lemma attempts_never_exceed_ceiling_witness :
  (0 <= maxRetries (constructor None no_options))%Z /\
  (Z.of_nat (attempts (snd (snd (_request (constructor None no_options)
                                   "GET" "/metas/current" []
                                   [TimedOut; TimedOut; TimedOut; TimedOut; TimedOut]))))
   <= 3 + 1)%Z.
Proof.
  split.
  - simpl. lia.
  - apply (attempts_never_exceed_ceiling (constructor None no_options)
             "GET" "/metas/current" []
             [TimedOut; TimedOut; TimedOut; TimedOut; TimedOut]).
    simpl. lia.
Defined.

(** C8 (as stated) fails on an empty body: [JSON.parse] refuses the empty
    text, and yet with status 200 the promise is resolved, with [{}]. *)
Lemma empty_body_is_not_a_parse_failure :
  JSON_parse EmptyString = inr "Unexpected end of JSON input"
  /\ makeRequest (constructor None no_options) [Response 200 [] EmptyString] 0
     = (Resolved (JObj []), [HttpsRequest 0]).
Proof. split; reflexivity. Qed.

Lemma malformed_body_is_fatal_witness :
  blank "<html>" = false
  /\ JSON_parse "<html>" = inr "Unexpected token"
  /\ makeRequest (constructor None no_options) [Response 200 [] "<html>"] 0
     = (Rejected (mkError ("Failed to parse JSON response: Unexpected token"
                           ++ String "010" "Response: <html>...") None),
        [HttpsRequest 0]).
Proof.
  split; [reflexivity|]. split; [reflexivity|].
  refine (proj1 (malformed_body_is_fatal (platform := sample_platform)
                   (constructor None no_options) [] 0 200 []
                   "<html>" "Unexpected token" eq_refl eq_refl)).
Defined.

Lemma empty_body_resolves_by_status_witness :
  blank "  " = true
  /\ makeRequest (constructor None no_options) [Response 204 [] "  "] 0
     = (Resolved (JObj []), [HttpsRequest 0])
  /\ makeRequest (constructor None no_options) [Response 502 [] "  "] 0
     = (Rejected (mkError "Empty response with status 502" None), [HttpsRequest 0]).
Proof.
  split; [reflexivity|]. split.
  - apply (empty_body_resolves_by_status (constructor None no_options) [] 0 204 []
             "  " eq_refl).
  - apply (empty_body_resolves_by_status (constructor None no_options) [] 0 502 []
             "  " eq_refl).
Defined.

(* ================================================================= *)
(** ** The constructor *)

(** C2 (as stated) fails on [baseUrl]: the README's options leave the host
    of the client, and of every URL it builds, at the fixed one. *)
Lemma supplied_baseUrl_is_ignored :
  let client :=
    constructor None
      (mkOptions (Some "https://api.pump.fun/v1") (Some "your-api-key")
         (Some 3%Z) (Some 1000%Z) None) in
  baseUrl client <> "https://api.pump.fun/v1"
  /\ href (build_url client "GET" "/coins/latest" [])
     = "https://frontend-api-v3.pump.fun/coins/latest".
Proof. split; [discriminate | reflexivity]. Qed.

Lemma lookup_Authorization (token : string) :
  lookup "Authorization" (default_headers ++ [("Authorization", token)])%list
  = Some token.
Proof. reflexivity. Qed.

(** C2 (as amended). The constructor reads [apiKey], [maxRetries] and
    [retryDelay] from its options, each on its own: a non-empty [apiKey]
    becomes the bearer token of the [Authorization] header, a given
    [maxRetries] the retry ceiling and a given [retryDelay] the base delay.
    The base URL is the fixed [https://frontend-api-v3.pump.fun] for every
    options object, and a [baseUrl] option changes nothing of the client. *)
Theorem constructor_configuration (env : option string) (o : options) :
  let client := constructor env o in
  baseUrl client = "https://frontend-api-v3.pump.fun"
  /\ (forall url,
        constructor env
          (mkOptions url (opt_apiKey o) (opt_maxRetries o) (opt_retryDelay o)
             (opt_debug o))
        = client)
  /\ (forall key,
        opt_apiKey o = Some key -> key <> EmptyString ->
        apiKey client = Some key
        /\ lookup "Authorization" (headers client) = Some ("Bearer " ++ key))
  /\ (forall retries, opt_maxRetries o = Some retries -> maxRetries client = retries)
  /\ (forall delay, opt_retryDelay o = Some delay -> retryDelay client = delay).
Proof.
  cbv zeta. unfold constructor. cbv zeta. simpl.
  split; [reflexivity|]. split; [reflexivity|]. split; [|split].
  - intros key Hkey Hne. rewrite Hkey.
    destruct key as [|c key]; [now destruct Hne|]. simpl. split; reflexivity.
  - intros retries Hretries. now rewrite Hretries.
  - intros delay Hdelay. now rewrite Hdelay.
Qed.

Lemma constructor_configuration_witness :
  let supplied :=
    mkOptions (Some "https://api.pump.fun/v1") (Some "your-api-key")
      (Some 5%Z) (Some 250%Z) (Some true) in
  let client := constructor (Some "key-of-the-environment") supplied in
  baseUrl client = "https://frontend-api-v3.pump.fun"
  /\ (apiKey client = Some "your-api-key"
      /\ lookup "Authorization" (headers client) = Some "Bearer your-api-key")
  /\ maxRetries client = 5%Z
  /\ retryDelay client = 250%Z
  /\ maxRetries (constructor None (mkOptions None None (Some 7%Z) None None)) = 7%Z.
Proof.
  cbv zeta.
  pose proof (constructor_configuration (Some "key-of-the-environment")
                (mkOptions (Some "https://api.pump.fun/v1") (Some "your-api-key")
                   (Some 5%Z) (Some 250%Z) (Some true)))
    as (Hurl & _ & Hkey & Hretries & Hdelay).
  split; [exact Hurl|].
  split; [apply (Hkey "your-api-key" eq_refl); discriminate|].
  split; [exact (Hretries 5%Z eq_refl)|].
  split; [exact (Hdelay 250%Z eq_refl)|].
  exact (proj1 (proj2 (proj2 (proj2
           (constructor_configuration None (mkOptions None None (Some 7%Z) None None)))))
           7%Z eq_refl).
Defined.

(* ================================================================= *)
(** ** The paginated collector *)

Section CollectorProperties.

Context {trade : Type}.
Variables (address : string) (batch : Z) (cap : option Z) (minimum : Z).

Local Abbreviation run := (collect (trade := trade) address batch cap minimum).

Lemma len_app (l l' : list trade) : len (l ++ l') = (len l + len l')%Z.
Proof. unfold len. rewrite length_app. lia. Qed.

Lemma len_zero (l : list trade) : (len l =? 0)%Z = true -> l = [].
Proof.
  destruct l; [reflexivity|]. unfold len. simpl length.
  intros H. apply Z.eqb_eq in H. lia.
Qed.

Lemma len_not_zero (l : list trade) : (len l =? 0)%Z = false -> l <> [].
Proof. intros H ->. discriminate. Qed.

Lemma pages_after_sleep (b : bool) (trace : list (call trade)) :
  pages ((if b then [Sleep 500] else []) ++ trace) = pages trace.
Proof. now destruct b. Qed.

Lemma queries_after_sleep (b : bool) (trace : list (call trade)) :
  queries ((if b then [Sleep 500] else []) ++ trace) = queries trace.
Proof. now destruct b. Qed.

(** The loop, one case at a time. *)
Lemma run_eq (server : list (fetch trade)) (allTrades : list trade) (offset : Z) :
  run server allTrades offset =
  if cap_reached cap (len allTrades) then (Resolved allTrades, [])
  else
    let query := mkQuery address (page_limit batch cap (len allTrades)) offset minimum in
    match server with
    | [] => (Pending, [GetTokenTrades query None])
    | f :: server' =>
        match f query with
        | Threw e => (Rejected e, [GetTokenTrades query (Some (Threw e))])
        | Returned response_trades =>
            let trades := trades_or_empty response_trades in
            if (len trades =? 0)%Z
            then (Resolved allTrades,
                  [GetTokenTrades query (Some (Returned response_trades))])
            else
              (fst (run server' (allTrades ++ trades)%list (offset + len trades)%Z),
               GetTokenTrades query (Some (Returned response_trades))
               :: (if (len trades =? batch)%Z then [Sleep 500] else [])
               ++ snd (run server' (allTrades ++ trades)%list (offset + len trades)%Z))%list
        end
    end.
Proof.
  destruct server as [|f server']; simpl; [reflexivity|].
  destruct (cap_reached cap (len allTrades)); [reflexivity|].
  destruct (f _) as [rt|e]; [|reflexivity].
  destruct (len (trades_or_empty rt) =? 0)%Z; [reflexivity|].
  now destruct (collect _ _ _ _ _ _ _).
Qed.

(** What a run fetched and what it returns. *)
Lemma run_pages (server : list (fetch trade)) :
  forall (allTrades : list trade) (offset : Z),
    offset = len allTrades ->
    paged batch cap (len allTrades) (pages (snd (run server allTrades offset)))
    /\ forall ts,
         fst (run server allTrades offset) = Resolved ts ->
         ts = (allTrades ++ concat (map snd (pages (snd (run server allTrades offset)))))%list
         /\ (cap_reached cap (len ts) = true
             \/ exists q before,
                  pages (snd (run server allTrades offset)) = (before ++ [(q, [])])%list).
Proof.
  induction server as [|f server IH]; intros allTrades offset Hoff;
    rewrite run_eq; destruct (cap_reached cap (len allTrades)) eqn:Hcap;
    cbv zeta; simpl.
  - split; [exact I|]. intros ts H. injection H as <-.
    rewrite app_nil_r. auto.
  - split; [exact I|]. intros ts H. discriminate.
  - split; [exact I|]. intros ts H. injection H as <-.
    rewrite app_nil_r. auto.
  - destruct (f _) as [rt|e] eqn:Hf; simpl.
    2:{ split; [exact I|]. intros ts H. discriminate. }
    destruct (len (trades_or_empty rt) =? 0)%Z eqn:Hlen; simpl.
    + apply len_zero in Hlen. rewrite Hlen. simpl.
      repeat split; auto.
      * inversion H. now rewrite app_nil_r.
      * right. eexists. exists []. reflexivity.
    + rewrite pages_after_sleep.
      assert (Hoff' : (offset + len (trades_or_empty rt))%Z
                      = len (allTrades ++ trades_or_empty rt)).
      { rewrite len_app. lia. }
      destruct (IH (allTrades ++ trades_or_empty rt)%list _ Hoff') as [Hpaged Hres].
      rewrite len_app in Hpaged.
      split.
      * repeat split; auto.
        intros Hnil. apply len_not_zero in Hlen. now destruct Hlen.
      * intros ts Hts. destruct (Hres ts Hts) as [Heq Hstop]. split.
        -- rewrite Heq. now rewrite <- app_assoc.
        -- destruct Hstop as [Hstop | (q & before & Hstop)]; [now left|].
           right. exists q. eexists (_ :: before). rewrite Hstop. reflexivity.
Qed.

(** With a positive cap and an endpoint that honours the limit the
    accumulated trades never pass the cap. *)
Lemma run_within_cap (m : Z) (server : list (fetch trade)) :
  cap = Some m -> (0 < m)%Z ->
  Forall honours_limit server ->
  forall (allTrades : list trade) (offset : Z) (ts : list trade),
    (len allTrades <= m)%Z ->
    fst (run server allTrades offset) = Resolved ts ->
    (len ts <= m)%Z.
Proof.
  intros Hm Hpos Hserver.
  induction Hserver as [|f server Hf Hserver IH]; intros allTrades offset ts Hle;
    rewrite run_eq; destruct (cap_reached cap (len allTrades)) eqn:Hcap;
    cbv zeta; simpl.
  - intros H. now injection H as <-.
  - discriminate.
  - intros H. now injection H as <-.
  - destruct (f _) as [rt|e] eqn:Hq; simpl; [|discriminate].
    destruct (len (trades_or_empty rt) =? 0)%Z eqn:Hlen; simpl.
    + intros H. now injection H as <-.
    + apply IH. rewrite len_app.
      destruct rt as [t|]; simpl in *; [|discriminate].
      apply Hf in Hq. simpl in Hq. unfold page_limit in Hq.
      unfold cap_reached in Hcap. rewrite Hm in Hq, Hcap.
      destruct (m =? 0)%Z eqn:Hz; simpl in Hq, Hcap; [apply Z.eqb_eq in Hz; lia|].
      apply Z.leb_gt in Hcap. lia.
Qed.

(** A failed call ends the run, with its error. *)
Lemma run_failure (server : list (fetch trade)) :
  forall (allTrades : list trade) (offset : Z) (q : trades_query) (e : Error),
    In (GetTokenTrades q (Some (Threw e))) (snd (run server allTrades offset)) ->
    fst (run server allTrades offset) = Rejected e
    /\ exists before,
         snd (run server allTrades offset)
         = (before ++ [GetTokenTrades q (Some (Threw e))])%list.
Proof.
  induction server as [|f server IH]; intros allTrades offset q e;
    rewrite run_eq; destruct (cap_reached cap (len allTrades)) eqn:Hcap;
    cbv zeta; simpl; try tauto.
  - intros [H|[]]. discriminate.
  - destruct (f _) as [rt|e'] eqn:Hf; simpl.
    2:{ intros [H|[]]. injection H as <- <-. split; [reflexivity|].
        now exists []. }
    destruct (len (trades_or_empty rt) =? 0)%Z eqn:Hlen; simpl.
    + intros [H|[]]. discriminate.
    + intros [H|H]; [discriminate|].
      apply in_app_or in H. destruct H as [H|H].
      { destruct (len (trades_or_empty rt) =? batch)%Z; simpl in H;
          [destruct H as [H|[]]; discriminate | destruct H]. }
      destruct (IH _ _ _ _ H) as [Hp (before & Htrace)].
      split; [exact Hp|]. rewrite Htrace.
      eexists (_ :: _ ++ before)%list. simpl. now rewrite <- app_assoc.
Qed.

(** Under a positive cap the run ends within [cap] calls: every page that
    does not end it brings at least one trade. *)
Lemma run_settles_under_cap (m : Z) (server : list (fetch trade)) :
  cap = Some m -> (0 < m)%Z ->
  forall (allTrades : list trade) (offset : Z),
    (m - len allTrades <= Z.of_nat (length server))%Z ->
    fst (run server allTrades offset) <> Pending.
Proof.
  intros Hm Hpos.
  induction server as [|f server IH]; intros allTrades offset Hlen;
    rewrite run_eq; destruct (cap_reached cap (len allTrades)) eqn:Hcap;
    cbv zeta; simpl; try discriminate.
  - unfold cap_reached in Hcap. rewrite Hm in Hcap. simpl in Hlen.
    destruct (m =? 0)%Z eqn:Hz; [apply Z.eqb_eq in Hz; lia|].
    simpl in Hcap. apply Z.leb_gt in Hcap. lia.
  - destruct (f _) as [rt|e]; simpl; [|discriminate].
    destruct (len (trades_or_empty rt) =? 0)%Z eqn:Hz; simpl; [discriminate|].
    apply IH. rewrite len_app. simpl length in Hlen.
    apply Z.eqb_neq in Hz. unfold len in *. lia.
Qed.

(** Without a cap the run ends at the first call that brings no trade. *)
Lemma run_settles_at_empty_page (server : list (fetch trade)) :
  Exists (fun f => forall q, f q = Returned None \/ f q = Returned (Some [])) server ->
  forall (allTrades : list trade) (offset : Z),
    fst (run server allTrades offset) <> Pending.
Proof.
  induction 1 as [f server Hf | f server Hex IH]; intros allTrades offset;
    rewrite run_eq; destruct (cap_reached cap (len allTrades));
    cbv zeta; simpl; try discriminate.
  - destruct (Hf (mkQuery address (page_limit batch cap (len allTrades)) offset minimum))
      as [-> | ->]; simpl; discriminate.
  - destruct (f _) as [rt|e]; simpl; [|discriminate].
    destruct (len (trades_or_empty rt) =? 0)%Z; simpl; [discriminate|].
    apply IH.
Qed.

End CollectorProperties.

(** *** The collector against the answers of the endpoint *)

Section CollectorAnswers.

Context {trade : Type}.
Variables (address : string) (batch : Z) (cap : option Z) (minimum : Z).

Local Abbreviation run := (collect (trade := trade) address batch cap minimum).
Local Abbreviation next := (query_at (trade := trade) address batch cap minimum).

Lemma queries_app (t t' : list (call trade)) :
  queries (t ++ t') = (queries t ++ queries t')%list.
Proof.
  induction t as [|[q a|d] t IH]; simpl; [reflexivity| |exact IH]. now rewrite IH.
Qed.

Lemma pages_app (t t' : list (call trade)) :
  pages (t ++ t') = (pages t ++ pages t')%list.
Proof.
  induction t as [|[q [[r|e]|]|d] t IH]; simpl; try exact IH; [reflexivity|].
  now rewrite IH.
Qed.

(** The loop stops as soon as the cap is reached. *)
Lemma run_cap_reached (server : list (fetch trade)) (acc : list trade) (offset : Z) :
  cap_reached cap (len acc) = true ->
  run server acc offset = (Resolved acc, []).
Proof. intros H. rewrite run_eq. now rewrite H. Qed.

(** It stops at a page that brings no trade. *)
Lemma run_empty_page (f : fetch trade) (server : list (fetch trade))
    (acc : list trade) (r : option (list trade)) :
  cap_reached cap (len acc) = false ->
  f (next acc) = Returned r ->
  trades_or_empty r = [] ->
  run (f :: server) acc (len acc)
  = (Resolved acc, [GetTokenTrades (next acc) (Some (Returned r))]).
Proof.
  intros Hcap Hf Hr. rewrite run_eq, Hcap. cbv zeta.
  unfold query_at in Hf. rewrite Hf, Hr. reflexivity.
Qed.

(** It stops at a call that fails. *)
Lemma run_threw (f : fetch trade) (server : list (fetch trade))
    (acc : list trade) (e : Error) :
  cap_reached cap (len acc) = false ->
  f (next acc) = Threw e ->
  run (f :: server) acc (len acc)
  = (Rejected e, [GetTokenTrades (next acc) (Some (Threw e))]).
Proof.
  intros Hcap Hf. rewrite run_eq, Hcap. cbv zeta.
  unfold query_at in Hf. now rewrite Hf.
Qed.

(** It goes on after a page that brings trades. *)
Lemma run_page (f : fetch trade) (server : list (fetch trade))
    (acc : list trade) (r : option (list trade)) (p : list trade) :
  cap_reached cap (len acc) = false ->
  f (next acc) = Returned r ->
  trades_or_empty r = p ->
  p <> [] ->
  run (f :: server) acc (len acc)
  = (fst (run server (acc ++ p) (len (acc ++ p))),
     GetTokenTrades (next acc) (Some (Returned r))
     :: (if (len p =? batch)%Z then [Sleep 500] else [])
     ++ snd (run server (acc ++ p) (len (acc ++ p))))%list.
Proof.
  intros Hcap Hf Hr Hne. rewrite run_eq, Hcap. cbv zeta.
  unfold query_at in Hf. rewrite Hf, Hr.
  replace (len p =? 0)%Z with false.
  - now rewrite len_app.
  - symmetry. apply Z.eqb_neq. intros H. apply Hne.
    apply len_zero. now apply Z.eqb_eq.
Qed.

(** Through the pages that the endpoint answers with, the run is the run
    over the answers that remain, with the pages in hand. *)
Lemma run_answers (ps : list (list trade)) :
  forall (server : list (fetch trade)) (acc : list trade),
    answers address batch cap minimum server acc ps ->
    exists before,
      run server acc (len acc)
      = (fst (run (skipn (length ps) server) (acc ++ concat ps)
                (len (acc ++ concat ps))),
         before ++ snd (run (skipn (length ps) server) (acc ++ concat ps)
                          (len (acc ++ concat ps))))%list
      /\ length (queries before) = length ps
      /\ map snd (pages before) = ps.
Proof.
  induction ps as [|p ps IH]; intros server acc Hans.
  - exists []. simpl. rewrite app_nil_r.
    destruct (run server acc (len acc)). repeat split; reflexivity.
  - destruct server as [|f server]; [now destruct Hans|].
    destruct Hans as (Hcap & Hne & (r & Hf & Hr) & Hrest).
    destruct (IH server (acc ++ p)%list Hrest) as (before & Hrun & Hq & Hp).
    rewrite (run_page f server acc r p Hcap Hf Hr Hne), Hrun.
    simpl skipn. simpl concat. rewrite !app_assoc.
    exists (GetTokenTrades (next acc) (Some (Returned r))
            :: (if (len p =? batch)%Z then [Sleep 500] else []) ++ before)%list.
    cbn [fst snd]. split; [|split].
    + f_equal. simpl. now rewrite <- !app_assoc.
    + simpl. rewrite queries_after_sleep. now rewrite Hq.
    + simpl. rewrite pages_after_sleep, Hr. simpl. now rewrite Hp.
Qed.

Lemma calls_after_sleep (b : bool) (trace : list (call trade)) :
  calls ((if b then [Sleep 500] else []) ++ trace) = calls trace.
Proof. now destruct b. Qed.

(** The sleeps of a run sit right behind the full pages. *)
Lemma run_sleeps_placed (server : list (fetch trade)) :
  forall (acc : list trade) (offset : Z),
    snd (run server acc offset)
    = flat_map (with_sleep batch) (calls (snd (run server acc offset))).
Proof.
  induction server as [|f server IH]; intros acc offset;
    rewrite run_eq; destruct (cap_reached cap (len acc));
    cbv zeta; simpl; try reflexivity.
  destruct (f _) as [rt|e]; simpl; [|reflexivity].
  destruct (len (trades_or_empty rt) =? 0)%Z eqn:Hz; simpl.
  - unfold full_page. simpl. now rewrite Hz.
  - rewrite calls_after_sleep. unfold full_page. simpl snd. rewrite Hz.
    simpl negb. simpl andb. rewrite <- IH.
    now destruct (len (trades_or_empty rt) =? batch)%Z.
Qed.

End CollectorAnswers.

Lemma map_of_constant {A B : Type} (g : A -> B) (b : B) (l : list A) :
  Forall (fun a => g a = b) l -> map g l = repeat b (length l).
Proof. induction 1 as [|a l Ha _ IH]; simpl; [reflexivity|]. now rewrite Ha, IH. Qed.

(** A cap of zero and no cap make the same loop. *)
Lemma collect_zero_cap {trade : Type} (address : string) (batch minimum : Z)
    (server : list (fetch trade)) :
  forall (allTrades : list trade) (offset : Z),
    collect address batch (Some 0%Z) minimum server allTrades offset
    = collect address batch None minimum server allTrades offset.
Proof.
  induction server as [|f server IH]; intros allTrades offset; simpl;
    [reflexivity|].
  destruct (f _) as [rt|e]; [|reflexivity].
  destruct (len (trades_or_empty rt) =? 0)%Z; [reflexivity|].
  now rewrite IH.
Qed.

(** Without a cap every page is asked for with the batch size. *)
Lemma uncapped_limits {trade : Type} (address : string) (batch minimum : Z)
    (server : list (fetch trade)) :
  forall (allTrades : list trade) (offset : Z),
    Forall (fun q => q_limit q = batch)
      (queries (snd (collect address batch None minimum server allTrades offset))).
Proof.
  induction server as [|f server IH]; intros allTrades offset;
    rewrite run_eq; simpl.
  - repeat constructor.
  - destruct (f _) as [rt|e]; simpl; [|repeat constructor].
    destruct (len (trades_or_empty rt) =? 0)%Z; simpl; [repeat constructor|].
    constructor; [reflexivity|]. rewrite queries_after_sleep. apply IH.
Qed.

Lemma mock_endpoint_honours_limit {trade : Type} (data : list trade) :
  honours_limit (mock_endpoint data).
Proof.
  intros q t H. unfold mock_endpoint in H. injection H as <-.
  unfold len. pose proof (firstn_le_length (Z.to_nat (q_limit q))
                            (skipn (Z.to_nat (q_offset q)) data)). lia.
Qed.

(** C5 (as amended). For every sequence of answers of the endpoint:
    the pages are asked for in turn, each at the offset that is the number
    of trades returned so far and with the limit [batchSize], or
    [min(batchSize, maxTrades - collected)] under a cap that is not zero;
    no page is asked for after an empty one; a run that returns does so
    with the concatenation of the pages in order, at the first empty page
    or once the cap is reached; under a positive cap, when no page holds
    more trades than were asked for, it returns at most [maxTrades] trades.
    And the collector does return: when the endpoint answers with the pages
    [ps], none empty, the collector returns their concatenation after
    [length ps] calls if the cap is then reached, and after one more call if
    the answer to that call is an empty page. *)
Theorem collector_concatenates_pages {trade : Type} (o : collect_options)
    (server : list (fetch trade)) :
  let address := tokenAddress o in
  let batch := or_default (batchSize o) 200%Z in
  let minimum := or_default (minimumSize o) 50000000%Z in
  let result := getAllTokenTrades o server in
  paged batch (maxTrades o) 0 (pages (snd result))
  /\ (forall m collected,
        maxTrades o = Some m -> m <> 0%Z ->
        page_limit batch (maxTrades o) collected = Z.min batch (m - collected))
  /\ (forall ts,
        fst result = Resolved ts ->
        ts = concat (map snd (pages (snd result)))
        /\ (cap_reached (maxTrades o) (len ts) = true
            \/ exists q before, pages (snd result) = (before ++ [(q, [])])%list))
  /\ (forall m ts,
        maxTrades o = Some m -> (0 < m)%Z ->
        Forall honours_limit server ->
        fst result = Resolved ts ->
        (len ts <= m)%Z)
  /\ (forall ps,
        answers address batch (maxTrades o) minimum server [] ps ->
        cap_reached (maxTrades o) (len (concat ps)) = true ->
        fst result = Resolved (concat ps)
        /\ map snd (pages (snd result)) = ps
        /\ length (queries (snd result)) = length ps)
  /\ (forall ps f rest r,
        answers address batch (maxTrades o) minimum server [] ps ->
        cap_reached (maxTrades o) (len (concat ps)) = false ->
        skipn (length ps) server = f :: rest ->
        f (query_at address batch (maxTrades o) minimum (concat ps)) = Returned r ->
        trades_or_empty r = [] ->
        fst result = Resolved (concat ps)
        /\ map snd (pages (snd result)) = (ps ++ [[]])%list
        /\ length (queries (snd result)) = S (length ps)).
Proof.
  cbv zeta. unfold getAllTokenTrades.
  destruct (run_pages (tokenAddress o) (or_default (batchSize o) 200%Z)
              (maxTrades o) (or_default (minimumSize o) 50000000%Z)
              server [] 0%Z eq_refl) as [Hpaged Hres].
  split; [exact Hpaged|]. split; [|split; [|split; [|split]]].
  - intros m collected Hm Hne. unfold page_limit. rewrite Hm.
    apply Z.eqb_neq in Hne. now rewrite Hne.
  - exact Hres.
  - intros m ts Hm Hpos Hserver Hts.
    apply (run_within_cap (tokenAddress o) (or_default (batchSize o) 200%Z)
             (maxTrades o) (or_default (minimumSize o) 50000000%Z)
             m server Hm Hpos Hserver [] 0%Z ts); [|exact Hts].
    unfold len. simpl. lia.
  - intros ps Hans Hcap.
    destruct (run_answers _ _ _ _ ps server [] Hans) as (before & Hrun & Hq & Hp).
    change (len (@nil trade)) with 0%Z in Hrun. simpl app in Hrun.
    rewrite Hrun. rewrite (run_cap_reached _ _ _ _ _ _ _ Hcap).
    cbn [fst snd]. rewrite app_nil_r. repeat split; assumption.
  - intros ps f rest r Hans Hcap Hskip Hf Hr.
    destruct (run_answers _ _ _ _ ps server [] Hans) as (before & Hrun & Hq & Hp).
    change (len (@nil trade)) with 0%Z in Hrun. simpl app in Hrun.
    rewrite Hrun, Hskip. rewrite (run_empty_page _ _ _ _ f rest _ r Hcap Hf Hr).
    cbn [fst snd]. rewrite pages_app, queries_app, map_app, length_app, Hq, Hp.
    simpl. rewrite Hr. repeat split; try reflexivity. lia.
Qed.

(** C6. When the endpoint has answered with the pages [ps], none empty,
    the cap is not reached, and the call for the next page fails with [e],
    the collection is rejected with that same [e]: the failed call is made
    once and is the last effect of the run (no retry, no further page), and
    the trades of the pages [ps] are not returned. *)
Theorem page_failure_aborts_collection {trade : Type} (o : collect_options)
    (server : list (fetch trade)) (ps : list (list trade))
    (f : fetch trade) (rest : list (fetch trade)) (e : Error) :
  let address := tokenAddress o in
  let batch := or_default (batchSize o) 200%Z in
  let minimum := or_default (minimumSize o) 50000000%Z in
  let failed := query_at address batch (maxTrades o) minimum (concat ps) in
  answers address batch (maxTrades o) minimum server [] ps ->
  cap_reached (maxTrades o) (len (concat ps)) = false ->
  skipn (length ps) server = f :: rest ->
  f failed = Threw e ->
  fst (getAllTokenTrades o server) = Rejected e
  /\ length (queries (snd (getAllTokenTrades o server))) = S (length ps)
  /\ exists before,
       snd (getAllTokenTrades o server)
       = (before ++ [GetTokenTrades failed (Some (Threw e))])%list
       /\ map snd (pages before) = ps
       /\ length (queries before) = length ps.
Proof.
  cbv zeta. intros Hans Hcap Hskip Hf. unfold getAllTokenTrades.
  destruct (run_answers _ _ _ _ ps server [] Hans) as (before & Hrun & Hq & Hp).
  change (len (@nil trade)) with 0%Z in Hrun. simpl app in Hrun.
  rewrite Hrun, Hskip. rewrite (run_threw _ _ _ _ f rest _ e Hcap Hf).
  cbn [fst snd]. split; [reflexivity|]. split.
  - rewrite queries_app, length_app, Hq. simpl. lia.
  - exists before. repeat split; assumption.
Qed.

(** C10. With [maxTrades = 0] the collector runs as it does without
    [maxTrades]: every page is asked for with the whole batch size, and a
    run that returns does so with all the pages, the last of which is the
    empty one. And the pages are indeed drained: when the endpoint, asked
    for [batchSize] trades at each offset, answers with the pages [ps], none
    empty, and then with an empty page, the collector returns the
    concatenation of [ps] after [length ps + 1] calls, each with the limit
    [batchSize]. *)
Theorem zero_cap_is_no_cap {trade : Type} (o : collect_options)
    (server : list (fetch trade)) :
  maxTrades o = Some 0%Z ->
  let address := tokenAddress o in
  let batch := or_default (batchSize o) 200%Z in
  let minimum := or_default (minimumSize o) 50000000%Z in
  let result := getAllTokenTrades o server in
  result = getAllTokenTrades
             (mkCollect (tokenAddress o) (batchSize o) None (minimumSize o)) server
  /\ Forall (fun q => q_limit q = batch) (queries (snd result))
  /\ (forall ts,
        fst result = Resolved ts ->
        ts = concat (map snd (pages (snd result)))
        /\ exists q before, pages (snd result) = (before ++ [(q, [])])%list)
  /\ (forall ps f rest r,
        answers address batch None minimum server [] ps ->
        skipn (length ps) server = f :: rest ->
        f (mkQuery address batch (len (concat ps)) minimum) = Returned r ->
        trades_or_empty r = [] ->
        fst result = Resolved (concat ps)
        /\ map snd (pages (snd result)) = (ps ++ [[]])%list
        /\ map q_limit (queries (snd result)) = repeat batch (S (length ps))).
Proof.
  intros Hzero. cbv zeta. unfold getAllTokenTrades. simpl maxTrades.
  simpl tokenAddress. simpl batchSize. simpl minimumSize.
  rewrite Hzero, collect_zero_cap.
  split; [reflexivity|]. split; [apply uncapped_limits|]. split.
  - intros ts Hts.
    destruct (run_pages (tokenAddress o) (or_default (batchSize o) 200%Z) None
                (or_default (minimumSize o) 50000000%Z) server [] 0%Z eq_refl)
      as [_ Hres].
    destruct (Hres ts Hts) as [Heq [Hcap|Hlast]]; [discriminate|].
    split; assumption.
  - intros ps f rest r Hans Hskip Hf Hr.
    pose proof (uncapped_limits (tokenAddress o) (or_default (batchSize o) 200%Z)
                  (or_default (minimumSize o) 50000000%Z) server [] 0%Z) as Hlimits.
    apply map_of_constant in Hlimits. rewrite Hlimits. clear Hlimits.
    destruct (run_answers _ _ _ _ ps server [] Hans) as (before & Hrun & Hq & Hp).
    change (len (@nil trade)) with 0%Z in Hrun. simpl app in Hrun.
    rewrite Hrun, Hskip.
    rewrite (run_empty_page _ _ None _ f rest _ r eq_refl Hf Hr).
    cbn [fst snd]. split; [reflexivity|]. split.
    + rewrite pages_app, map_app, Hp. simpl. now rewrite Hr.
    + rewrite queries_app, length_app, Hq. simpl length.
      now rewrite Nat.add_1_r.
Qed.

(** *** The collector on concrete runs *)

(** C5 (as stated) fails on [maxTrades = 0]: the cap is supplied, the
    endpoint serves five trades and honours every limit, and the collector
    asks for pages of 2 (not of [min(2, 0 - 0)]) and returns the five. *)
Lemma zero_cap_is_exceeded :
  let o := mkCollect "token" (Some 2%Z) (Some 0%Z) None in
  let server := repeat (mock_endpoint [1; 2; 3; 4; 5]%nat) 4 in
  let result := getAllTokenTrades o server in
  Forall honours_limit server
  /\ fst result = Resolved [1; 2; 3; 4; 5]%nat
  /\ ~ (len [1; 2; 3; 4; 5]%nat <= 0)%Z
  /\ map q_limit (queries (snd result)) = [2; 2; 2; 2]%Z
  /\ Z.min 2 (0 - len (@nil nat)) <> 2%Z.
Proof.
  cbv zeta. split; [|split; [|split; [|split]]].
  - simpl. repeat constructor; apply mock_endpoint_honours_limit.
  - reflexivity.
  - unfold len. simpl. lia.
  - reflexivity.
  - unfold len. simpl. lia.
Qed.

(** An endpoint that ignores the limit takes the collector past a positive
    cap as well: asked for one trade it brings two. *)
Example greedy_endpoint_passes_cap :
  getAllTokenTrades (mkCollect "token" (Some 2%Z) (Some 3%Z) None)
    (repeat (greedy_endpoint 2 [1; 2; 3; 4; 5]%nat) 4)
  = (Resolved [1; 2; 3; 4]%nat,
     [GetTokenTrades (mkQuery "token" 2 0 50000000)
        (Some (Returned (Some [1; 2]%nat)));
      Sleep 500;
      GetTokenTrades (mkQuery "token" 1 2 50000000)
        (Some (Returned (Some [3; 4]%nat)));
      Sleep 500]).
Proof. reflexivity. Qed.

(** Checks that a concrete endpoint answers with given pages. *)
Ltac answers_with_pages :=
  simpl;
  repeat (split; [reflexivity|];
          split; [discriminate|];
          split; [eexists; split; reflexivity|]);
  exact I.

Lemma collector_concatenates_pages_witness :
  let capped := mkCollect "token" (Some 2%Z) (Some 3%Z) None in
  let uncapped := mkCollect "token" (Some 2%Z) None None in
  let server := repeat (mock_endpoint [1; 2; 3; 4; 5]%nat) 4 in
  answers "token" 2 (Some 3%Z) 50000000 server [] [[1; 2]; [3]]%nat
  /\ Forall honours_limit server
  /\ (fst (getAllTokenTrades capped server) = Resolved [1; 2; 3]%nat
      /\ map snd (pages (snd (getAllTokenTrades capped server))) = [[1; 2]; [3]]%nat
      /\ length (queries (snd (getAllTokenTrades capped server))) = 2%nat)
  /\ (len [1; 2; 3]%nat <= 3)%Z
  /\ answers "token" 2 None 50000000 server [] [[1; 2]; [3; 4]; [5]]%nat
  /\ (fst (getAllTokenTrades uncapped server) = Resolved [1; 2; 3; 4; 5]%nat
      /\ map snd (pages (snd (getAllTokenTrades uncapped server)))
         = [[1; 2]; [3; 4]; [5]; []]%nat
      /\ length (queries (snd (getAllTokenTrades uncapped server))) = 4%nat).
Proof.
  cbv zeta.
  assert (Hserver : Forall honours_limit (repeat (mock_endpoint [1; 2; 3; 4; 5]%nat) 4)).
  { simpl. repeat constructor; apply mock_endpoint_honours_limit. }
  assert (Hcapped : answers "token" 2 (Some 3%Z) 50000000
                      (repeat (mock_endpoint [1; 2; 3; 4; 5]%nat) 4) []
                      [[1; 2]; [3]]%nat) by answers_with_pages.
  assert (Huncapped : answers "token" 2 None 50000000
                        (repeat (mock_endpoint [1; 2; 3; 4; 5]%nat) 4) []
                        [[1; 2]; [3; 4]; [5]]%nat) by answers_with_pages.
  pose proof (collector_concatenates_pages
                (mkCollect "token" (Some 2%Z) (Some 3%Z) None)
                (repeat (mock_endpoint [1; 2; 3; 4; 5]%nat) 4))
    as (_ & _ & _ & Hbound & Hcap & _).
  pose proof (collector_concatenates_pages
                (mkCollect "token" (Some 2%Z) None None)
                (repeat (mock_endpoint [1; 2; 3; 4; 5]%nat) 4))
    as (_ & _ & _ & _ & _ & Hempty).
  split; [exact Hcapped|]. split; [exact Hserver|].
  split; [exact (Hcap [[1; 2]; [3]]%nat Hcapped eq_refl)|].
  split; [exact (Hbound 3%Z [1; 2; 3]%nat eq_refl eq_refl Hserver eq_refl)|].
  split; [exact Huncapped|].
  exact (Hempty [[1; 2]; [3; 4]; [5]]%nat (mock_endpoint [1; 2; 3; 4; 5]%nat) []
           (Some []) Huncapped eq_refl eq_refl eq_refl eq_refl).
Defined.

Lemma page_failure_aborts_collection_witness :
  let o := mkCollect "token" (Some 2%Z) None None in
  let server :=
    [mock_endpoint [1; 2; 3]%nat;
     fun _ => Threw (mkError "socket hang up" None);
     mock_endpoint [1; 2; 3]%nat] in
  answers "token" 2 None 50000000 server [] [[1; 2]]%nat
  /\ fst (getAllTokenTrades o server) = Rejected (mkError "socket hang up" None)
  /\ length (queries (snd (getAllTokenTrades o server))) = 2%nat
  /\ snd (getAllTokenTrades o server)
     = [GetTokenTrades (mkQuery "token" 2 0 50000000)
          (Some (Returned (Some [1; 2]%nat)));
        Sleep 500;
        GetTokenTrades (mkQuery "token" 2 2 50000000)
          (Some (Threw (mkError "socket hang up" None)))].
Proof.
  cbv zeta.
  assert (Hans : answers "token" 2 None 50000000
                   [mock_endpoint [1; 2; 3]%nat;
                    fun _ => Threw (mkError "socket hang up" None);
                    mock_endpoint [1; 2; 3]%nat] [] [[1; 2]]%nat)
    by answers_with_pages.
  pose proof (page_failure_aborts_collection
                (mkCollect "token" (Some 2%Z) None None)
                [mock_endpoint [1; 2; 3]%nat;
                 fun _ => Threw (mkError "socket hang up" None);
                 mock_endpoint [1; 2; 3]%nat]
                [[1; 2]]%nat
                (fun _ => Threw (mkError "socket hang up" None))
                [mock_endpoint [1; 2; 3]%nat]
                (mkError "socket hang up" None)
                Hans eq_refl eq_refl eq_refl) as (Hresult & Hcalls & _).
  split; [exact Hans|]. split; [exact Hresult|]. split; [exact Hcalls|].
  reflexivity.
Defined.

Lemma zero_cap_is_no_cap_witness :
  let o := mkCollect "token" (Some 2%Z) (Some 0%Z) None in
  let server := repeat (mock_endpoint [1; 2; 3; 4; 5]%nat) 4 in
  maxTrades o = Some 0%Z
  /\ answers "token" 2 None 50000000 server [] [[1; 2]; [3; 4]; [5]]%nat
  /\ getAllTokenTrades o server
     = getAllTokenTrades (mkCollect "token" (Some 2%Z) None None) server
  /\ fst (getAllTokenTrades o server) = Resolved [1; 2; 3; 4; 5]%nat
  /\ map q_limit (queries (snd (getAllTokenTrades o server))) = [2; 2; 2; 2]%Z.
Proof.
  cbv zeta.
  assert (Hans : answers "token" 2 None 50000000
                   (repeat (mock_endpoint [1; 2; 3; 4; 5]%nat) 4) []
                   [[1; 2]; [3; 4]; [5]]%nat) by answers_with_pages.
  pose proof (zero_cap_is_no_cap
                (mkCollect "token" (Some 2%Z) (Some 0%Z) None)
                (repeat (mock_endpoint [1; 2; 3; 4; 5]%nat) 4) eq_refl) as H.
  cbv zeta in H. destruct H as (Hsame & _ & _ & Hdrain).
  destruct (Hdrain [[1; 2]; [3; 4]; [5]]%nat (mock_endpoint [1; 2; 3; 4; 5]%nat) []
              (Some []) Hans eq_refl eq_refl eq_refl) as (Hresult & _ & Hlimits).
  split; [reflexivity|]. split; [exact Hans|]. split; [exact Hsame|].
  split; [exact Hresult | exact Hlimits].
Defined.


(* ================================================================= *)
(** * Further properties of the executor *)

Section ExecutorFurther.

Context {platform : Platform}.
Variable this : PumpFunAPI.

(** The ['end'] handler on a body that parses. *)
Lemma on_end_parsed (attempt : nat) (statusCode : Z)
    (res_headers : list (string * string)) (body : string) (j : json) :
  blank body = false ->
  JSON_parse body = inl j ->
  on_end this attempt statusCode res_headers body =
  if (400 <=? statusCode)%Z then
    match errorMessage_of j with
    | Throw m => Reject (mkError ("Failed to process response: " ++ m) None)
    | Normal errorMessage =>
        match ToString errorMessage with
        | Throw m => Reject (mkError ("Failed to process response: " ++ m) None)
        | Normal text =>
            Reject (mkError ("API request failed with status "
                             ++ number_to_string statusCode ++ ": " ++ text)
                            (Some (statusCode, j, res_headers)))
        end
    end
  else Resolve j.
Proof.
  intros Hb Hp. unfold on_end.
  destruct (trim_not_blank body Hb) as (c & t & ->). rewrite Hp.
  destruct (400 <=? statusCode)%Z eqn:H400; [reflexivity|].
  destruct (statusCode =? 429)%Z eqn:H429; [|reflexivity].
  apply Z.eqb_eq in H429. apply Z.leb_gt in H400. lia.
Qed.

(** The handler does not depend on the number of the attempt. *)
Lemma on_end_any_attempt (attempt attempt' : nat) (statusCode : Z)
    (res_headers : list (string * string)) (body : string) :
  on_end this attempt statusCode res_headers body
  = on_end this attempt' statusCode res_headers body.
Proof.
  unfold on_end. destruct (trim body); [reflexivity|].
  destruct (JSON_parse body) as [j|m]; [|reflexivity].
  destruct (400 <=? statusCode)%Z eqn:H400; [reflexivity|].
  destruct (statusCode =? 429)%Z eqn:H429; [|reflexivity].
  apply Z.eqb_eq in H429. apply Z.leb_gt in H400. lia.
Qed.

(** The member shown by the message of an API error. *)
Lemma errorMessage_of_object (entries : list (string * json)) :
  errorMessage_of (JObj entries) =
  Normal match truthy_member entries "message" with
         | Some v => v
         | None =>
             match truthy_member entries "error" with
             | Some w => w
             | None => JStr "Unknown error"
             end
         end.
Proof.
  unfold errorMessage_of, truthy_member, get.
  destruct (lookup "message" entries) as [v|];
    [destruct (truthy v); [reflexivity|]|];
    destruct (lookup "error" entries) as [w|]; try reflexivity;
    destruct (truthy w); reflexivity.
Qed.

(** The member of an error body that the message shows: [message] if it
    is truthy, else [error] if it is truthy, else the text [Unknown error]. *)
Lemma api_error_of_object (net : list outcome) (attempt : nat) (statusCode : Z)
    (res_headers : list (string * string)) (body : string)
    (entries : list (string * json)) :
  blank body = false ->
  JSON_parse body = inl (JObj entries) ->
  (400 <= statusCode)%Z ->
  makeRequest this (Response statusCode res_headers body :: net) attempt =
  (match ToString match truthy_member entries "message" with
                  | Some v => v
                  | None =>
                      match truthy_member entries "error" with
                      | Some w => w
                      | None => JStr "Unknown error"
                      end
                  end
   with
   | Normal text =>
       Rejected
         (mkError ("API request failed with status "
                   ++ number_to_string statusCode ++ ": " ++ text)
                  (Some (statusCode, JObj entries, res_headers)))
   | Throw m => Rejected (mkError ("Failed to process response: " ++ m) None)
   end,
   [HttpsRequest attempt]).
Proof.
  intros Hb Hp Hst. rewrite makeRequest_response.
  rewrite (on_end_parsed attempt statusCode res_headers body _ Hb Hp).
  apply Z.leb_le in Hst. rewrite Hst. rewrite errorMessage_of_object.
  now destruct (ToString _).
Qed.

(** X1. A response with a status below 400 (2xx, and 1xx and 3xx as well)
    whose body is not blank and parses resolves the promise with the parsed
    value, in the attempt that received it. *)
Theorem parsed_response_below_400_resolves (net : list outcome) (attempt : nat)
    (statusCode : Z) (res_headers : list (string * string)) (body : string)
    (j : json) :
  blank body = false ->
  JSON_parse body = inl j ->
  (statusCode < 400)%Z ->
  makeRequest this (Response statusCode res_headers body :: net) attempt
  = (Resolved j, [HttpsRequest attempt]).
Proof.
  intros Hb Hp Hst. rewrite makeRequest_response.
  rewrite (on_end_parsed attempt statusCode res_headers body j Hb Hp).
  apply Z.leb_gt in Hst. now rewrite Hst.
Qed.

(** X2. A response with a status of 400 or more whose body parses to an
    object rejects the promise, without any retry. The member shown is the
    [message] member of the body if it is truthy, else the [error] member if
    it is truthy, else [Unknown error]. When that member converts to text,
    the error is the API error, with the text in its message and with
    status, parsed body and headers attached; when the conversion throws (an
    object with an own [toString] member), the error is the "Failed to
    process response" one, with nothing attached. *)
Theorem api_error_carries_response (net : list outcome) (attempt : nat)
    (statusCode : Z) (res_headers : list (string * string)) (body : string)
    (entries : list (string * json)) :
  blank body = false ->
  JSON_parse body = inl (JObj entries) ->
  (400 <= statusCode)%Z ->
  exists shown,
    (forall v, truthy_member entries "message" = Some v -> shown = v)
    /\ (forall w, truthy_member entries "message" = None ->
                  truthy_member entries "error" = Some w -> shown = w)
    /\ (truthy_member entries "message" = None ->
        truthy_member entries "error" = None -> shown = JStr "Unknown error")
    /\ (forall text,
          ToString shown = Normal text ->
          makeRequest this (Response statusCode res_headers body :: net) attempt
          = (Rejected
               (mkError ("API request failed with status "
                         ++ number_to_string statusCode ++ ": " ++ text)
                        (Some (statusCode, JObj entries, res_headers))),
             [HttpsRequest attempt]))
    /\ (forall m,
          ToString shown = Throw m ->
          makeRequest this (Response statusCode res_headers body :: net) attempt
          = (Rejected (mkError ("Failed to process response: " ++ m) None),
             [HttpsRequest attempt])).
Proof.
  intros Hb Hp Hst.
  pose proof (api_error_of_object net attempt statusCode res_headers body entries
                Hb Hp Hst) as Hrun.
  exists match truthy_member entries "message" with
         | Some v => v
         | None =>
             match truthy_member entries "error" with
             | Some w => w
             | None => JStr "Unknown error"
             end
         end.
  split; [|split; [|split; [|split]]].
  - intros v Hv. now rewrite Hv.
  - intros w Hm Hw. now rewrite Hm, Hw.
  - intros Hm He. now rewrite Hm, He.
  - intros text Htext. rewrite Hrun, Htext. reflexivity.
  - intros m Hthrow. rewrite Hrun, Hthrow. reflexivity.
Qed.

(** X3. When the error body has no truthy [message] and its [error] member
    is an object (the shape that docs/endpoints.md documents): if that
    object has no [toString] member, the message of the API error ends in
    [[object Object]] and the nested code and message are not shown; if it
    has one, the conversion throws and the promise is rejected with the
    "Failed to process response" error, without status or headers. *)
Theorem nested_error_object_is_not_shown (net : list outcome) (attempt : nat)
    (statusCode : Z) (res_headers : list (string * string)) (body : string)
    (entries nested : list (string * json)) :
  blank body = false ->
  JSON_parse body = inl (JObj entries) ->
  (400 <= statusCode)%Z ->
  truthy_member entries "message" = None ->
  lookup "error" entries = Some (JObj nested) ->
  (lookup "toString" nested = None ->
   makeRequest this (Response statusCode res_headers body :: net) attempt
   = (Rejected
        (mkError ("API request failed with status "
                  ++ number_to_string statusCode ++ ": [object Object]")
                 (Some (statusCode, JObj entries, res_headers))),
      [HttpsRequest attempt]))
  /\ (lookup "toString" nested <> None ->
      makeRequest this (Response statusCode res_headers body :: net) attempt
      = (Rejected
           (mkError ("Failed to process response: "
                     ++ "Cannot convert object to primitive value") None),
         [HttpsRequest attempt])).
Proof.
  intros Hb Hp Hst Hm He.
  rewrite (api_error_of_object net attempt statusCode res_headers body entries Hb Hp Hst).
  rewrite Hm. unfold truthy_member. rewrite He. simpl.
  split; intros Hts.
  - now rewrite Hts.
  - destruct (lookup "toString" nested); [reflexivity | now destruct Hts].
Qed.

(** X4. When the body of an error response is the JSON text [null], reading
    its [message] throws inside the handler: the promise is rejected with a
    "Failed to process response" error that carries neither status nor
    headers. *)
Theorem null_error_body_loses_the_status (net : list outcome) (attempt : nat)
    (statusCode : Z) (res_headers : list (string * string)) (body : string) :
  blank body = false ->
  JSON_parse body = inl JNull ->
  (400 <= statusCode)%Z ->
  makeRequest this (Response statusCode res_headers body :: net) attempt
  = (Rejected
       (mkError ("Failed to process response: "
                 ++ "Cannot read properties of null (reading 'message')") None),
     [HttpsRequest attempt]).
Proof.
  intros Hb Hp Hst. rewrite makeRequest_response.
  rewrite (on_end_parsed attempt statusCode res_headers body JNull Hb Hp).
  apply Z.leb_le in Hst. now rewrite Hst.
Qed.

End ExecutorFurther.

Section ExecutorRuns.

Context {platform : Platform}.
Variable this : PumpFunAPI.




Lemma delays_from (net : list outcome) :
  forall attempt : nat,
    Forall (fun d => exists z, d = ms z /\ (z <= 30000)%Z
                               /\ ((0 <= retryDelay this)%Z -> (0 <= z)%Z))
      (delays (snd (makeRequest this net attempt))).
Proof.
  induction net as [|o net IH]; intros attempt; simpl; [constructor|].
  destruct (handle this attempt o) as [v|e|d next] eqn:Hh; simpl; try constructor.
  specialize (IH next). destruct (makeRequest this net next) as [p trace].
  simpl in *. constructor; [|exact IH].
  apply handle_retry in Hh. destruct Hh as (_ & _ & -> & _).
  eexists. split; [reflexivity|]. split; [lia|].
  intros Hpos.
  assert (0 <= retryDelay this * 2 ^ Z.of_nat attempt)%Z.
  { apply Z.mul_nonneg_nonneg; [exact Hpos|]. apply Z.pow_nonneg. lia. }
  lia.
Qed.

(** X6. Every timer that the executor sets between attempts is a whole
    number of milliseconds of at most 30000, and not negative when
    [retryDelay] is not negative. *)
Theorem backoff_delays_are_bounded (method endpoint : string)
    (params : list (string * value)) (net : list outcome) (d : number) :
  In d (delays (snd (snd (_request this method endpoint params net)))) ->
  exists z, d = ms z /\ (z <= 30000)%Z /\ ((0 <= retryDelay this)%Z -> (0 <= z)%Z).
Proof.
  intros Hin. unfold _request in Hin. simpl snd in Hin.
  pose proof (delays_from net 0) as H. rewrite Forall_forall in H. now apply H.
Qed.

Lemma exhausted_from (failures : list outcome) :
  forall (net : list outcome) (attempt : nat) (e : Error),
    Forall (fun o => transport_error o <> None) failures ->
    (Z.of_nat (attempt + length failures) = maxRetries this + 1)%Z ->
    transport_error (last failures TimedOut) = Some e ->
    failures <> [] ->
    fst (makeRequest this (failures ++ net) attempt) = Rejected e
    /\ attempts (snd (makeRequest this (failures ++ net) attempt)) = length failures.
Proof.
  induction failures as [|o failures IH]; intros net attempt e Hall Hlen Hlast Hne.
  - now destruct Hne.
  - inversion Hall as [|? ? Ho Hall']; subst.
    destruct (transport_error o) as [eo|] eqn:Heo; [|now destruct Ho].
    rewrite <- app_comm_cons. rewrite (makeRequest_transport this _ attempt o eo Heo).
    simpl length in *. destruct failures as [|o' failures].
    + simpl in Hlast. rewrite Heo in Hlast. injection Hlast as <-.
      simpl length in Hlen.
      replace (Z.of_nat attempt <? maxRetries this)%Z with false
        by (symmetry; apply Z.ltb_ge; lia).
      split; reflexivity.
    + replace (Z.of_nat attempt <? maxRetries this)%Z with true
        by (symmetry; apply Z.ltb_lt; simpl length in Hlen; lia).
      assert (Hlast' : transport_error (last (o' :: failures) TimedOut) = Some e)
        by exact Hlast.
      destruct (IH net (attempt + 1)%nat e Hall') as [Hp Hn];
        [simpl length in *; lia | exact Hlast' | discriminate |].
      cbn [fst snd attempts]. split; [exact Hp|]. now rewrite Hn.
Qed.

(** X7. When the first [maxRetries + 1] physical requests all fail at
    transport level, the promise is rejected with the error of the last of
    them (not of the first), after exactly [maxRetries + 1] requests. *)
Theorem exhausted_retries_reject_with_last_error (failures net : list outcome)
    (e : Error) :
  Forall (fun o => transport_error o <> None) failures ->
  (Z.of_nat (length failures) = maxRetries this + 1)%Z ->
  transport_error (last failures TimedOut) = Some e ->
  failures <> [] ->
  fst (makeRequest this (failures ++ net) 0) = Rejected e
  /\ attempts (snd (makeRequest this (failures ++ net) 0)) = length failures.
Proof.
  intros Hall Hlen Hlast Hne.
  exact (exhausted_from failures net 0 e Hall Hlen Hlast Hne).
Qed.

Lemma recovered_from (failures : list outcome) :
  forall (net : list outcome) (attempt : nat) (statusCode : Z)
         (res_headers : list (string * string)) (body : string),
    Forall (fun o => transport_error o <> None) failures ->
    (Z.of_nat (attempt + length failures) <= maxRetries this)%Z ->
    fst (makeRequest this (failures ++ Response statusCode res_headers body :: net) attempt)
    = fst (makeRequest this [Response statusCode res_headers body] 0)
    /\ attempts (snd (makeRequest this
                        (failures ++ Response statusCode res_headers body :: net) attempt))
       = S (length failures).
Proof.
  induction failures as [|o failures IH];
    intros net attempt statusCode res_headers body Hall Hlen.
  - rewrite app_nil_l, !makeRequest_response.
    rewrite (on_end_any_attempt this attempt 0). split; reflexivity.
  - inversion Hall as [|? ? Ho Hall']; subst.
    destruct (transport_error o) as [eo|] eqn:Heo; [|now destruct Ho].
    rewrite <- app_comm_cons. rewrite (makeRequest_transport this _ attempt o eo Heo).
    simpl length in *.
    replace (Z.of_nat attempt <? maxRetries this)%Z with true
      by (symmetry; apply Z.ltb_lt; lia).
    destruct (IH net (attempt + 1)%nat statusCode res_headers body Hall') as [Hp Hn];
      [lia|].
    cbn [fst snd attempts]. split; [exact Hp|]. now rewrite Hn.
Qed.

(** X8. Retries do not show in the result: when [k <= maxRetries] transport
    failures come before a response, the promise ends as it would have had
    the response come first, after [k + 1] requests. *)
Theorem retries_are_invisible_in_the_result (failures net : list outcome)
    (statusCode : Z) (res_headers : list (string * string)) (body : string) :
  Forall (fun o => transport_error o <> None) failures ->
  (Z.of_nat (length failures) <= maxRetries this)%Z ->
  fst (makeRequest this (failures ++ Response statusCode res_headers body :: net) 0)
  = fst (makeRequest this [Response statusCode res_headers body] 0)
  /\ attempts (snd (makeRequest this
                      (failures ++ Response statusCode res_headers body :: net) 0))
     = S (length failures).
Proof.
  intros Hall Hlen.
  exact (recovered_from failures net 0 statusCode res_headers body Hall Hlen).
Qed.

End ExecutorRuns.

(* ================================================================= *)
(** * Further properties of the collector *)

Section CollectorFurther.

Context {trade : Type}.
Variables (address : string) (batch : Z) (cap : option Z) (minimum : Z).

Local Abbreviation loop := (collect (trade := trade) address batch cap minimum).

Lemma sleeps_after_sleep (b : bool) (trace : list (call trade)) :
  sleeps ((if b then [Sleep 500] else []) ++ trace)
  = ((if b then [500%Z] else []) ++ sleeps trace)%list.
Proof. now destruct b. Qed.

Lemma loop_sleeps (server : list (fetch trade)) :
  forall (allTrades : list trade) (offset : Z),
    sleeps (snd (loop server allTrades offset))
    = map (fun _ => 500%Z)
        (filter (full_page batch) (pages (snd (loop server allTrades offset)))).
Proof.
  induction server as [|f server IH]; intros allTrades offset;
    rewrite run_eq; destruct (cap_reached cap (len allTrades));
    cbv zeta; simpl; try reflexivity.
  destruct (f _) as [rt|e]; simpl; [|reflexivity].
  destruct (len (trades_or_empty rt) =? 0)%Z eqn:Hz; simpl.
  - unfold full_page. simpl. now rewrite Hz.
  - rewrite sleeps_after_sleep, pages_after_sleep, IH.
    unfold full_page at 2. simpl snd. rewrite Hz. simpl negb. simpl andb.
    now destruct (len (trades_or_empty rt) =? batch)%Z.
Qed.

Lemma loop_queries_bound (m : Z) (server : list (fetch trade)) :
  cap = Some m -> m <> 0%Z ->
  forall (allTrades : list trade) (offset : Z),
    (Z.of_nat (length (queries (snd (loop server allTrades offset))))
     <= Z.max 0 (m - len allTrades))%Z.
Proof.
  intros Hm Hne.
  induction server as [|f server IH]; intros allTrades offset;
    rewrite run_eq; destruct (cap_reached cap (len allTrades)) eqn:Hcap;
    cbv zeta; simpl; try lia;
    unfold cap_reached in Hcap; rewrite Hm in Hcap;
    apply Z.eqb_neq in Hne; rewrite Hne in Hcap; simpl in Hcap;
    apply Z.leb_gt in Hcap.
  - lia.
  - destruct (f _) as [rt|e]; simpl; [|lia].
    destruct (len (trades_or_empty rt) =? 0)%Z eqn:Hz; simpl; [lia|].
    rewrite queries_after_sleep.
    specialize (IH (allTrades ++ trades_or_empty rt)%list
                   (offset + len (trades_or_empty rt))%Z).
    rewrite len_app in IH. apply Z.eqb_neq in Hz.
    assert (0 <= len (trades_or_empty rt))%Z by (unfold len; lia).
    lia.
Qed.

Lemma loop_queries_fields (server : list (fetch trade)) :
  forall (allTrades : list trade) (offset : Z),
    Forall (fun q => q_tokenAddress q = address /\ q_minimumSize q = minimum)
      (queries (snd (loop server allTrades offset))).
Proof.
  induction server as [|f server IH]; intros allTrades offset;
    rewrite run_eq; destruct (cap_reached cap (len allTrades));
    cbv zeta; simpl; try (repeat constructor).
  destruct (f _) as [rt|e]; simpl; [|repeat constructor].
  destruct (len (trades_or_empty rt) =? 0)%Z; simpl; [repeat constructor|].
  constructor; [split; reflexivity|]. rewrite queries_after_sleep. apply IH.
Qed.

End CollectorFurther.

(** X11. The trace of a collection is its sequence of [getTokenTrades]
    calls with a sleep of 500 ms put right behind every call that brought a
    page that is not empty and holds exactly [batchSize] trades (also when
    the cap makes that page the last one), and with no sleep anywhere
    else. *)
Theorem sleeps_follow_full_pages {trade : Type} (o : collect_options)
    (server : list (fetch trade)) :
  snd (getAllTokenTrades o server)
  = flat_map (with_sleep (or_default (batchSize o) 200%Z))
      (calls (snd (getAllTokenTrades o server))).
Proof. unfold getAllTokenTrades. apply run_sleeps_placed. Qed.

(** X12. Under a cap that is not zero the collector calls [getTokenTrades]
    at most [maxTrades] times, and never when the cap is negative. *)
Theorem capped_collection_bounds_the_calls {trade : Type} (o : collect_options)
    (server : list (fetch trade)) (m : Z) :
  maxTrades o = Some m ->
  m <> 0%Z ->
  (Z.of_nat (length (queries (snd (getAllTokenTrades o server)))) <= Z.max 0 m)%Z.
Proof.
  intros Hm Hne. unfold getAllTokenTrades.
  pose proof (loop_queries_bound (tokenAddress o) (or_default (batchSize o) 200%Z)
                (maxTrades o) (or_default (minimumSize o) 50000000%Z)
                m server Hm Hne [] 0%Z) as H.
  unfold len in H. simpl in H. lia.
Qed.

(** X13. A negative [maxTrades] makes the collector return the empty list
    at once, without any call. *)
Theorem negative_cap_returns_nothing {trade : Type} (o : collect_options)
    (server : list (fetch trade)) (m : Z) :
  maxTrades o = Some m ->
  (m < 0)%Z ->
  getAllTokenTrades o server = (Resolved [], []).
Proof.
  intros Hm Hneg. unfold getAllTokenTrades. rewrite run_eq.
  unfold cap_reached. rewrite Hm.
  replace (m =? 0)%Z with false by (symmetry; apply Z.eqb_neq; lia).
  replace (m <=? len (@nil trade))%Z with true
    by (symmetry; apply Z.leb_le; unfold len; simpl; lia).
  reflexivity.
Qed.

(** X14. The collection comes to an end: under a positive cap once the
    endpoint has answered [maxTrades] calls, and in any case once one of its
    answers is an endpoint state that brings no trade. *)
Theorem collection_settles {trade : Type} (o : collect_options)
    (server : list (fetch trade)) :
  (exists m, maxTrades o = Some m /\ (0 < m <= Z.of_nat (length server))%Z)
  \/ Exists (fun f => forall q, f q = Returned None \/ f q = Returned (Some [])) server ->
  fst (getAllTokenTrades o server) <> Pending.
Proof.
  intros [(m & Hm & Hpos & Hlen) | Hex]; unfold getAllTokenTrades.
  - apply (run_settles_under_cap (tokenAddress o) (or_default (batchSize o) 200%Z)
             (maxTrades o) (or_default (minimumSize o) 50000000%Z) m server Hm Hpos).
    unfold len. simpl. lia.
  - now apply run_settles_at_empty_page.
Qed.

(** *** The collector against an endpoint that serves a data set *)

Lemma firstn_then_firstn_skipn {A : Type} (k l : nat) (d : list A) :
  (firstn k d ++ firstn l (skipn k d))%list = firstn (k + l) d.
Proof.
  revert d. induction k as [|k IH]; intros d; [reflexivity|].
  destruct d as [|a d]; simpl.
  - now rewrite firstn_nil.
  - now rewrite IH.
Qed.

Lemma firstn_min_length {A : Type} (n : nat) (d : list A) :
  firstn (Nat.min n (length d)) d = firstn n d.
Proof.
  destruct (Nat.le_ge_cases n (length d)) as [H|H].
  - now rewrite Nat.min_l.
  - rewrite Nat.min_r by exact H. rewrite firstn_all.
    symmetry. now apply firstn_all2.
Qed.

Section MockEndpoint.

Context {trade : Type}.
Variables (data : list trade) (address : string) (batch : Z) (cap : option Z)
  (minimum : Z).

(** What a caller expects of the collector over [data]. *)
Lemma loop_over_mock_endpoint :
  (0 < batch)%Z ->
  forall n k : nat,
    (k <= length data)%nat ->
    (length data - k < n)%nat ->
    (forall m, cap = Some m -> m <> 0%Z -> (Z.of_nat k <= Z.max 0 m)%Z) ->
    fst (collect address batch cap minimum (repeat (mock_endpoint data) n)
           (firstn k data) (Z.of_nat k))
    = Resolved match cap with
               | Some m => if (m =? 0)%Z then data else firstn (Z.to_nat m) data
               | None => data
               end.
Proof.
  intros Hbatch. induction n as [|n IH]; intros k Hk Hn Hinv; [lia|].
  simpl repeat. rewrite run_eq.
  assert (Hlen : len (firstn k data) = Z.of_nat k).
  { unfold len. rewrite length_firstn. lia. }
  rewrite Hlen. destruct (cap_reached cap (Z.of_nat k)) eqn:Hcap.
  - (* the cap is reached *)
    simpl. unfold cap_reached in Hcap. destruct cap as [m|]; [|discriminate].
    destruct (m =? 0)%Z eqn:Hz; [discriminate|]. simpl in Hcap.
    apply Z.leb_le in Hcap. apply Z.eqb_neq in Hz.
    specialize (Hinv m eq_refl Hz). f_equal. f_equal. lia.
  - cbv zeta.
    set (limit := page_limit batch cap (Z.of_nat k)).
    assert (Hlimit : (0 < limit)%Z /\
                     forall m, cap = Some m -> m <> 0%Z -> (limit <= m - Z.of_nat k)%Z).
    { unfold limit, page_limit, cap_reached in *. destruct cap as [m|].
      - destruct (m =? 0)%Z eqn:Hz; simpl in *.
        + split; [lia|]. intros m' Hm' Hne. injection Hm' as <-.
          apply Z.eqb_eq in Hz. lia.
        + apply Z.leb_gt in Hcap. split; [lia|].
          intros m' Hm' _. injection Hm' as <-. lia.
      - split; [lia|]. discriminate. }
    destruct Hlimit as [Hpos Hle].
    unfold mock_endpoint at 1. cbn [q_limit q_offset]. rewrite Nat2Z.id.
    cbn [trades_or_empty].
    set (page := firstn (Z.to_nat limit) (skipn k data)).
    assert (Hpage : length page = Nat.min (Z.to_nat limit) (length data - k)).
    { unfold page. now rewrite length_firstn, length_skipn. }
    destruct (len page =? 0)%Z eqn:Hz.
    + (* the data set is exhausted *)
      apply Z.eqb_eq in Hz. unfold len in Hz.
      assert (Hall : k = length data) by lia. subst k.
      simpl. rewrite firstn_all. f_equal.
      destruct cap as [m|]; [|reflexivity].
      destruct (m =? 0)%Z eqn:Hm; [reflexivity|].
      unfold cap_reached in Hcap. rewrite Hm in Hcap. simpl in Hcap.
      apply Z.leb_gt in Hcap. symmetry. apply firstn_all2. lia.
    + apply Z.eqb_neq in Hz. unfold len in Hz. cbn [fst].
      unfold page at 1. rewrite firstn_then_firstn_skipn.
      rewrite <- (firstn_min_length (k + Z.to_nat limit) data).
      replace (Z.of_nat k + len page)%Z
        with (Z.of_nat (Nat.min (k + Z.to_nat limit) (length data)))
        by (unfold len; lia).
      apply IH; try lia.
      intros m Hm Hne. specialize (Hle m Hm Hne). lia.
Qed.

End MockEndpoint.

(** X15. Against an endpoint that serves a data set by [limit] and
    [offset], with a positive batch size and more answers than the set has
    trades, the collector returns the whole set, in order, without a cap
    (or with the cap 0) and its first [maxTrades] trades under a cap. *)
Theorem collector_returns_the_data_set {trade : Type} (o : collect_options)
    (data : list trade) (n : nat) :
  (0 < or_default (batchSize o) 200)%Z ->
  (length data < n)%nat ->
  fst (getAllTokenTrades o (repeat (mock_endpoint data) n))
  = Resolved match maxTrades o with
             | Some m => if (m =? 0)%Z then data else firstn (Z.to_nat m) data
             | None => data
             end.
Proof.
  intros Hbatch Hn. unfold getAllTokenTrades.
  apply (loop_over_mock_endpoint data (tokenAddress o) (or_default (batchSize o) 200%Z)
           (maxTrades o) (or_default (minimumSize o) 50000000%Z) Hbatch n 0%nat);
    try lia.
Qed.

(* ================================================================= *)
(** * The endpoint methods *)

Section EndpointProperties.

Context {platform : Platform}.
Variable this : PumpFunAPI.

(** A key of the query is a key of [params] with a value that is set. *)
Lemma query_key_has_value (endpoint : string) (params : list (string * value))
    (key : string) :
  In key (map fst (searchParams (build_url this "GET" endpoint params))) ->
  exists v, In (key, v) params /\ defined v = true.
Proof.
  rewrite build_url_GET. simpl searchParams. intros H.
  apply in_map_iff in H. destruct H as [[k text] [Hk H]]. simpl in Hk. subst k.
  apply in_map_iff in H. destruct H as [[k v] [Heq H]].
  unfold stringify in Heq. simpl in Heq. injection Heq as -> _.
  apply filter_In in H. destruct H as [Hin Hd]. now exists v.
Qed.

Lemma query_has_set_entry (endpoint : string) (params : list (string * value))
    (key : string) (v : value) :
  In (key, v) params -> defined v = true ->
  In (key, to_String v) (searchParams (build_url this "GET" endpoint params)).
Proof.
  intros Hin Hd. rewrite build_url_GET. simpl searchParams.
  apply in_map_iff. exists (key, v). split; [reflexivity|].
  apply filter_In. split; assumption.
Qed.

(** X16. [searchCoins] called with an object that has no [searchTerm]
    property (such as the call of examples/javascript/search_coins.js, which
    passes [search_term]) sends a request whose query has no [searchTerm]:
    the search runs without any term. *)
Theorem search_without_searchTerm_sends_no_term (o : list (string * value))
    (net : list outcome) :
  lookup "searchTerm" o = None ->
  ~ In "searchTerm" (map fst (searchParams (fst (searchCoins this o net)))).
Proof.
  intros Hmissing Hin. unfold searchCoins, _request in Hin. simpl fst in Hin.
  apply query_key_has_value in Hin. destruct Hin as (v & Hin & Hd).
  simpl in Hin.
  destruct Hin as [H|Hin].
  { injection H as <-. unfold prop in Hd. rewrite Hmissing in Hd. discriminate. }
  repeat (destruct Hin as [H|Hin]; [discriminate|]).
  destruct Hin.
Qed.

(** X17. A default of an endpoint method replaces a missing or [undefined]
    option only: [getLatestCoins] asks for [limit=10] when [limit] is not
    given, and sends no [limit] at all when it is [null]. *)
Theorem null_option_is_dropped_not_defaulted (o : list (string * value))
    (net : list outcome) :
  (lookup "limit" o = None \/ lookup "limit" o = Some VUndefined ->
   In ("limit", "10") (searchParams (fst (getLatestCoins this o net))))
  /\ (lookup "limit" o = Some VNull ->
      ~ In "limit" (map fst (searchParams (fst (getLatestCoins this o net))))).
Proof.
  unfold getLatestCoins, _request. simpl fst. split.
  - intros H.
    apply (query_has_set_entry "/coins/latest" _ "limit" (VNumber 10)); [|reflexivity].
    left. unfold prop_or, prop. destruct H as [-> | ->]; reflexivity.
  - intros Hnull Hin. apply query_key_has_value in Hin.
    destruct Hin as (v & Hin & Hd). simpl in Hin.
    destruct Hin as [H|[H|[]]]; [|discriminate].
    injection H as <-. unfold prop_or, prop in Hd. rewrite Hnull in Hd. discriminate.
Qed.

(** X18. The methods that take an address do not check that it is given:
    without [tokenAddress] (or [walletAddress]) the request goes to the path
    that ends in the text [undefined]. *)
Theorem missing_address_requests_undefined (o : list (string * value))
    (net : list outcome) :
  lookup "tokenAddress" o = None ->
  lookup "walletAddress" o = None ->
  href (fst (getTokenTrades this o net)) = baseUrl this ++ "/trades/all/undefined"
  /\ href (fst (getTokenComments this o net)) = baseUrl this ++ "/replies/undefined"
  /\ href (fst (getWalletHoldings this o net)) = baseUrl this ++ "/balances/undefined"
  /\ href (fst (getWalletCreatedCoins this o net))
     = baseUrl this ++ "/coins/user-created-coins/undefined".
Proof.
  intros Htoken Hwallet.
  unfold getTokenTrades, getTokenComments, getWalletHoldings, getWalletCreatedCoins,
    _request. simpl fst. rewrite !build_url_GET. simpl href.
  unfold prop. rewrite Htoken, Hwallet. repeat split; reflexivity.
Qed.

(** X19. Every page that [getAllTokenTrades] asks for goes, through
    [getTokenTrades], to the path of the token given to the collector, with
    the query [limit], [offset], [minimumSize] in this order, in decimal, the
    minimum size being the collector's (50000000 by default). *)
Theorem page_requests_of_the_collector {trade : Type} (o : collect_options)
    (server : list (fetch trade)) (q : trades_query) (net : list outcome) :
  In q (queries (snd (getAllTokenTrades o server))) ->
  fst (getTokenTrades this (query_object q) net)
  = {| href := baseUrl this ++ "/trades/all/" ++ tokenAddress o;
       searchParams :=
         [ ("limit", number_to_string (q_limit q));
           ("offset", number_to_string (q_offset q));
           ("minimumSize",
            number_to_string (or_default (minimumSize o) 50000000%Z)) ] |}.
Proof.
  intros Hin. unfold getAllTokenTrades in Hin.
  pose proof (loop_queries_fields (tokenAddress o) (or_default (batchSize o) 200%Z)
                (maxTrades o) (or_default (minimumSize o) 50000000%Z)
                server [] 0%Z) as Hall.
  rewrite Forall_forall in Hall. destruct (Hall q Hin) as [Haddr Hmin].
  unfold getTokenTrades, _request. simpl fst. rewrite build_url_GET.
  unfold query_object, prop_or, prop. simpl. now rewrite Haddr, Hmin.
Qed.

End EndpointProperties.

(* ================================================================= *)
(** * The constructor and the formatting of time stamps *)


(** X21. A time stamp in seconds between 10^9 and 10^12 (from September
    2001 on) and the same instant in milliseconds are formatted alike. *)
Theorem seconds_and_milliseconds_format_alike
    (toISOString : Z -> completion string) (seconds : Z) :
  (1000000000 <= seconds < 1000000000000)%Z ->
  _formatTimestamp toISOString (Some seconds)
  = _formatTimestamp toISOString (Some (seconds * 1000)%Z)
  /\ _formatTimestamp toISOString (Some seconds) = toISOString (seconds * 1000)%Z.
Proof.
  intros [Hlo Hhi]. unfold _formatTimestamp.
  replace (seconds =? 0)%Z with false by (symmetry; apply Z.eqb_neq; lia).
  replace (seconds * 1000 =? 0)%Z with false by (symmetry; apply Z.eqb_neq; lia).
  replace (seconds <? 1000000000000)%Z with true by (symmetry; apply Z.ltb_lt; lia).
  replace (seconds * 1000 <? 1000000000000)%Z with false
    by (symmetry; apply Z.ltb_ge; lia).
  rewrite Z.mul_1_r. split; reflexivity.
Qed.

(* ================================================================= *)
(** * The further properties on concrete runs *)

Lemma parsed_response_below_400_resolves_witness :
  blank "[1]" = false
  /\ JSON_parse "[1]" = inl (JArr [JNum 1])
  /\ makeRequest (constructor None no_options)
       [Response 302 [("location", "/elsewhere")] "[1]"] 0
     = (Resolved (JArr [JNum 1]), [HttpsRequest 0]).
Proof.
  split; [reflexivity|]. split; [reflexivity|].
  refine (parsed_response_below_400_resolves (platform := sample_platform)
            (constructor None no_options) [] 0 302 [("location", "/elsewhere")]
            "[1]" (JArr [JNum 1]) eq_refl eq_refl _).
  lia.
Defined.

Lemma api_error_carries_response_witness :
  makeRequest (platform := docs_platform) (constructor None no_options)
    [Response 404 [] not_found_body] 0
  = (Rejected
       (mkError "API request failed with status 404: Not Found"
          (Some (404%Z,
                 JObj [("message", JStr "Not Found"); ("error", JStr "E404")],
                 []))),
     [HttpsRequest 0]).
Proof.
  destruct (api_error_carries_response (platform := docs_platform)
              (constructor None no_options) [] 0 404 [] not_found_body
              [("message", JStr "Not Found"); ("error", JStr "E404")]
              eq_refl eq_refl ltac:(lia))
    as (shown & Hmessage & _ & _ & Htext & _).
  apply Htext. rewrite (Hmessage _ eq_refl). reflexivity.
Defined.

Lemma nested_error_object_is_not_shown_witness :
  makeRequest (platform := docs_platform) (constructor None no_options)
    [Response 503 [] documented_error_body] 0
  = (Rejected
       (mkError "API request failed with status 503: [object Object]"
          (Some (503%Z,
                 JObj [("error", JObj [("code", JStr "RATE_LIMIT_EXCEEDED")])],
                 []))),
     [HttpsRequest 0])
  /\ makeRequest (platform := docs_platform) (constructor None no_options)
       [Response 503 [] toString_error_body] 0
     = (Rejected
          (mkError
             "Failed to process response: Cannot convert object to primitive value"
             None),
        [HttpsRequest 0]).
Proof.
  split.
  - refine (proj1 (nested_error_object_is_not_shown (platform := docs_platform)
                     (constructor None no_options) [] 0 503 [] documented_error_body
                     [("error", JObj [("code", JStr "RATE_LIMIT_EXCEEDED")])]
                     [("code", JStr "RATE_LIMIT_EXCEEDED")]
                     eq_refl eq_refl _ eq_refl eq_refl) eq_refl).
    lia.
  - refine (proj2 (nested_error_object_is_not_shown (platform := docs_platform)
                     (constructor None no_options) [] 0 503 [] toString_error_body
                     [("error", JObj [("toString", JNum 1)])]
                     [("toString", JNum 1)]
                     eq_refl eq_refl _ eq_refl eq_refl) _).
    + lia.
    + discriminate.
Defined.

Lemma null_error_body_loses_the_status_witness :
  makeRequest (constructor None no_options) [Response 500 [] "null"] 0
  = (Rejected
       (mkError
          "Failed to process response: Cannot read properties of null (reading 'message')"
          None),
     [HttpsRequest 0]).
Proof.
  refine (null_error_body_loses_the_status (platform := sample_platform)
            (constructor None no_options) [] 0 500 [] "null" eq_refl eq_refl _).
  lia.
Defined.


Lemma backoff_delays_are_bounded_witness :
  exists z, ms 4000 = ms z /\ (z <= 30000)%Z
            /\ ((0 <= retryDelay (constructor None no_options))%Z -> (0 <= z)%Z).
Proof.
  refine (backoff_delays_are_bounded (platform := sample_platform)
            (constructor None no_options) "GET" "/metas/current" []
            [TimedOut; TimedOut; TimedOut; Response 200 [] "{}"] (ms 4000) _).
  simpl. right. right. left. reflexivity.
Defined.

Lemma exhausted_retries_reject_with_last_error_witness :
  let failures :=
    [Failure (mkError "read ECONNRESET" None); TimedOut;
     Failure (mkError "getaddrinfo ENOTFOUND" None);
     Failure (mkError "socket hang up" None)] in
  fst (makeRequest (constructor None no_options) (failures ++ [Response 200 [] "{}"]) 0)
  = Rejected (mkError "socket hang up" None)
  /\ attempts (snd (makeRequest (constructor None no_options)
                      (failures ++ [Response 200 [] "{}"]) 0))
     = 4%nat.
Proof.
  cbv zeta.
  refine (exhausted_retries_reject_with_last_error (platform := sample_platform)
            (constructor None no_options)
            [Failure (mkError "read ECONNRESET" None); TimedOut;
             Failure (mkError "getaddrinfo ENOTFOUND" None);
             Failure (mkError "socket hang up" None)]
            [Response 200 [] "{}"] (mkError "socket hang up" None) _ _ eq_refl _).
  - repeat constructor; discriminate.
  - reflexivity.
  - discriminate.
Defined.

Lemma retries_are_invisible_in_the_result_witness :
  fst (makeRequest (constructor None no_options)
         ([TimedOut; Failure (mkError "read ECONNRESET" None)]
          ++ [Response 200 [] "[1]"]) 0)
  = Resolved (JArr [JNum 1])
  /\ attempts (snd (makeRequest (constructor None no_options)
                      ([TimedOut; Failure (mkError "read ECONNRESET" None)]
                       ++ [Response 200 [] "[1]"]) 0))
     = 3%nat.
Proof.
  refine (retries_are_invisible_in_the_result (platform := sample_platform)
            (constructor None no_options)
            [TimedOut; Failure (mkError "read ECONNRESET" None)] []
            200 [] "[1]" _ _).
  - repeat constructor; discriminate.
  - simpl. lia.
Defined.

Lemma sleeps_follow_full_pages_witness :
  let o := mkCollect "token" (Some 2%Z) (Some 4%Z) None in
  let server := repeat (mock_endpoint [1; 2; 3; 4; 5]%nat) 4 in
  snd (getAllTokenTrades o server)
  = flat_map (with_sleep 2) (calls (snd (getAllTokenTrades o server)))
  /\ snd (getAllTokenTrades o server)
     = [GetTokenTrades (mkQuery "token" 2 0 50000000)
          (Some (Returned (Some [1; 2]%nat)));
        Sleep 500;
        GetTokenTrades (mkQuery "token" 2 2 50000000)
          (Some (Returned (Some [3; 4]%nat)));
        Sleep 500].
Proof.
  cbv zeta. split; [|reflexivity].
  exact (sleeps_follow_full_pages
           (mkCollect "token" (Some 2%Z) (Some 4%Z) None)
           (repeat (mock_endpoint [1; 2; 3; 4; 5]%nat) 4)).
Defined.

Lemma capped_collection_bounds_the_calls_witness :
  (Z.of_nat (length (queries (snd (getAllTokenTrades
                                     (mkCollect "token" (Some 1%Z) (Some 3%Z) None)
                                     (repeat (mock_endpoint [1; 2; 3; 4; 5]%nat) 9)))))
   <= Z.max 0 3)%Z.
Proof.
  refine (capped_collection_bounds_the_calls
            (mkCollect "token" (Some 1%Z) (Some 3%Z) None)
            (repeat (mock_endpoint [1; 2; 3; 4; 5]%nat) 9) 3 eq_refl _).
  discriminate.
Defined.

Lemma negative_cap_returns_nothing_witness :
  getAllTokenTrades (mkCollect "token" None (Some (-1)%Z) None)
    (repeat (mock_endpoint [1; 2; 3]%nat) 4)
  = (Resolved [], []).
Proof.
  refine (negative_cap_returns_nothing
            (mkCollect "token" None (Some (-1)%Z) None)
            (repeat (mock_endpoint [1; 2; 3]%nat) 4) (-1) eq_refl _).
  lia.
Defined.

Lemma collection_settles_witness :
  fst (getAllTokenTrades (mkCollect "token" (Some 1%Z) (Some 2%Z) None)
         (repeat (greedy_endpoint 1 [1; 2; 3]%nat) 2))
  <> Pending
  /\ fst (getAllTokenTrades (mkCollect "token" (Some 2%Z) None None)
            [greedy_endpoint 2 [1; 2; 3]%nat; fun _ => Returned None])
     <> Pending.
Proof.
  split.
  - refine (collection_settles
              (mkCollect "token" (Some 1%Z) (Some 2%Z) None)
              (repeat (greedy_endpoint 1 [1; 2; 3]%nat) 2) _).
    left. exists 2%Z. split; [reflexivity|]. simpl. lia.
  - refine (collection_settles
              (mkCollect "token" (Some 2%Z) None None)
              [greedy_endpoint 2 [1; 2; 3]%nat; fun _ => Returned None] _).
    right. apply Exists_cons_tl. apply Exists_cons_hd. intros q. now left.
Defined.

Lemma collector_returns_the_data_set_witness :
  fst (getAllTokenTrades (mkCollect "token" (Some 2%Z) None None)
         (repeat (mock_endpoint [1; 2; 3; 4; 5]%nat) 6))
  = Resolved [1; 2; 3; 4; 5]%nat
  /\ fst (getAllTokenTrades (mkCollect "token" (Some 2%Z) (Some 3%Z) None)
            (repeat (mock_endpoint [1; 2; 3; 4; 5]%nat) 6))
     = Resolved [1; 2; 3]%nat.
Proof.
  split.
  - refine (collector_returns_the_data_set
              (mkCollect "token" (Some 2%Z) None None) [1; 2; 3; 4; 5]%nat 6 _ _).
    + simpl. lia.
    + simpl. lia.
  - refine (collector_returns_the_data_set
              (mkCollect "token" (Some 2%Z) (Some 3%Z) None) [1; 2; 3; 4; 5]%nat 6 _ _).
    + simpl. lia.
    + simpl. lia.
Defined.

Lemma search_without_searchTerm_sends_no_term_witness :
  let o :=
    [("search_term", VString "ethereum"); ("limit", VNumber 5);
     ("sort", VString "market_cap"); ("order", VString "DESC")] in
  searchParams (fst (searchCoins (constructor None no_options) o []))
  = [("limit", "5"); ("offset", "0"); ("sort", "market_cap"); ("order", "DESC");
     ("includeNsfw", "false"); ("type", "exact")]
  /\ ~ In "searchTerm"
         (map fst (searchParams (fst (searchCoins (constructor None no_options) o [])))).
Proof.
  cbv zeta. split; [reflexivity|].
  refine (search_without_searchTerm_sends_no_term (platform := sample_platform)
            (constructor None no_options)
            [("search_term", VString "ethereum"); ("limit", VNumber 5);
             ("sort", VString "market_cap"); ("order", VString "DESC")] [] eq_refl).
Defined.

Lemma null_option_is_dropped_not_defaulted_witness :
  In ("limit", "10")
    (searchParams (fst (getLatestCoins (constructor None no_options) [] [])))
  /\ ~ In "limit"
         (map fst (searchParams (fst (getLatestCoins (constructor None no_options)
                                        [("limit", VNull)] [])))).
Proof.
  split.
  - refine (proj1 (null_option_is_dropped_not_defaulted (platform := sample_platform)
                     (constructor None no_options) [] []) _).
    now left.
  - refine (proj2 (null_option_is_dropped_not_defaulted (platform := sample_platform)
                     (constructor None no_options) [("limit", VNull)] []) eq_refl).
Defined.

Lemma missing_address_requests_undefined_witness :
  href (fst (getTokenTrades (constructor None no_options) [("limit", VNumber 5)] []))
  = "https://frontend-api-v3.pump.fun/trades/all/undefined".
Proof.
  refine (proj1 (missing_address_requests_undefined (platform := sample_platform)
                   (constructor None no_options) [("limit", VNumber 5)] []
                   eq_refl eq_refl)).
Defined.

Lemma page_requests_of_the_collector_witness :
  fst (getTokenTrades (constructor None no_options)
         (query_object (mkQuery "token" 1 2 50000000)) [])
  = {| href := "https://frontend-api-v3.pump.fun/trades/all/token";
       searchParams :=
         [("limit", "1"); ("offset", "2"); ("minimumSize", "50000000")] |}.
Proof.
  refine (page_requests_of_the_collector (platform := sample_platform)
            (constructor None no_options)
            (mkCollect "token" (Some 2%Z) (Some 3%Z) None)
            (repeat (mock_endpoint [1; 2; 3; 4; 5]%nat) 4)
            (mkQuery "token" 1 2 50000000) [] _).
  simpl. right. left. reflexivity.
Defined.


Lemma seconds_and_milliseconds_format_alike_witness :
  _formatTimestamp sample_toISOString (Some 1700000000%Z)
  = _formatTimestamp sample_toISOString (Some 1700000000000%Z)
  /\ _formatTimestamp sample_toISOString (Some 1700000000%Z)
     = Normal "1700000000000 ms".
Proof.
  refine (seconds_and_milliseconds_format_alike sample_toISOString 1700000000 _).
  lia.
Defined.
